(** * cleanupdockerhub: retention rule, repository processing and run
      orchestration of the Docker Hub cleanup script

    A shallow embedding of [cleanupdockerhub.py].  The script is a chain of
    HTTP calls, log lines and exceptions over module-level configuration, so
    the embedding is a state-and-exception monad over an abstract host (the
    [requests] library, the clock, [datetime.fromisoformat] and the cron
    parser), a record for the configuration constants, and JSON values for
    everything the registry sends back. *)

From stdpp Require Import base strings list gmap.
From Stdlib Require Import ZArith Lia Ascii.

Local Open Scope Z_scope.
Set Warnings "-register-all".  (* json nests through list and prod *)

(* ===================================================================== *)
(** ** Values received from the registry *)
(* ===================================================================== *)

(** What [resp.json()] can produce.  JSON numbers are kept to integers, and
    a string is a sequence of code points below 256, one per character. *)
Inductive json : Type :=
  | JNull
  | JBool (b : bool)
  | JInt (z : Z)
  | JStr (s : string)
  | JList (l : list json)
  | JObj (items : list (string * json)).

(** Python truthiness, as used by [while url:] and [if not last_updated_str:]. *)
Definition truthy (v : json) : bool :=
  match v with
  | JNull => false
  | JBool b => b
  | JInt z => negb (z =? 0)
  | JStr s => negb (String.eqb s "")
  | JList l => match l with [] => false | _ :: _ => true end
  | JObj items => match items with [] => false | _ :: _ => true end
  end.

(** A dict is the list of its items (distinct keys, insertion order);
    looking a key up takes its binding. *)
Fixpoint items_lookup (items : list (string * json)) (k : string) : option json :=
  match items with
  | [] => None
  | (k', v) :: rest => if String.eqb k' k then Some v else items_lookup rest k
  end.

(** [x in xs] for a list of strings [xs]: [==] between a [str] and anything
    that is not a [str] is [False]. *)
Definition py_in (v : json) (xs : list string) : bool :=
  match v with
  | JStr s => existsb (String.eqb s) xs
  | _ => false
  end.

(** [s.replace("Z", "+00:00")]: every occurrence is replaced. *)
Fixpoint replace_Z (s : string) : string :=
  match s with
  | EmptyString => EmptyString
  | String c rest =>
      if Ascii.eqb c "Z"%char then ("+00:00" +:+ replace_Z rest)%string
      else String c (replace_Z rest)
  end.

(* ===================================================================== *)
(** ** Exceptions, outcomes, and the host the script runs on *)
(* ===================================================================== *)

(** Failures raised by [requests.post/get/delete] themselves. *)
Inductive request_failure : Type :=
  | ConnectionError
  | Timeout
  | InvalidURL.

Inductive exn : Type :=
  | RequestError (f : request_failure)
  | HTTPError (status : Z)
  | JSONDecodeError
  | AttributeError
  | TypeError
  | KeyError (k : string)
  | ValueError
  | SystemExit (code : Z)
  | KeyboardInterrupt.

(** The classes caught by [except Exception]. *)
Definition is_Exception (e : exn) : bool :=
  match e with
  | SystemExit _ | KeyboardInterrupt => false
  | _ => true
  end.

(** [OutOfFuel] stands for a [while] loop that has not finished within the
    number of iterations the model was given. *)
Inductive outcome (A : Type) : Type :=
  | Ok (a : A)
  | Raise (e : exn)
  | OutOfFuel.
Arguments Ok {A} a.
Arguments Raise {A} e.
Arguments OutOfFuel {A}.

Record response : Type := mkResponse {
  status_code : Z;
  body : option json   (* [None]: the body is not JSON *)
}.

(** The URLs the script builds with f-strings are kept symbolic; [NextUrl]
    is whatever the previous page put under ["next"]. *)
Inductive url : Type :=
  | LoginUrl
  | RepositoriesUrl (ns : string)
  | TagsUrl (ns : string) (repo : json)
  | TagUrl (ns : string) (repo : json) (tag : json)
  | NextUrl (v : json).

(** A parsed timestamp: instants are microseconds since the epoch. *)
Inductive datetime : Type :=
  | Aware (utc_us : Z)
  | Naive (local_us : Z).

Variant CronTrigger : Type := Trigger (expr : string).

(** The collaborators: [W] is the state of the outside world (registry,
    network, clock). *)
Class Host (W : Type) : Type := {
  requests_post : url -> string * string -> W -> (request_failure + response) * W;
  requests_get : url -> json -> W -> (request_failure + response) * W;
  requests_delete : url -> json -> W -> (request_failure + response) * W;
  datetime_now : W -> Z;
  datetime_fromisoformat : string -> option datetime;
  from_crontab : string -> option CronTrigger
}.

(* ===================================================================== *)
(** ** Configuration constants and what a run leaves behind *)
(* ===================================================================== *)

Record Config : Type := mkConfig {
  DOCKERHUB_USERNAME : string;
  DOCKERHUB_TOKEN : string;
  DOCKERHUB_NAMESPACE : string;
  KEEP_LAST_N : Z;
  MIN_AGE_DAYS : Z;
  DRY_RUN : bool;
  REPOS_TO_CLEAN : list string;
  EXCLUDE_TAGS : list string;
  CRON_SCHEDULE : string
}.

(** The reason strings of [evaluate_tag], with the numbers they mention. *)
Inductive reason : Type :=
  | ExcludedTag (name : json)
  | NoTimestamp
  | BeyondKeepOldEnough (rank1 keep age min_age : Z)
  | WithinKeepWindow (rank1 keep : Z)
  | TooYoung (rank1 age min_age : Z).

(** The [stats] and [totals] dicts: four fixed keys. *)
Record stats : Type := mkStats {
  checked : Z;
  deleted : Z;
  kept : Z;
  errors : Z
}.

Inductive level : Type := DEBUG | INFO | WARNING | ERROR.

(** Log lines, one constructor per message of the script; the divider lines
    are left out, and the banner and the summary of a run are one message
    each. *)
Inductive message : Type :=
  | MsgRepository (ns : string) (repo : json)
  | MsgWouldDelete (repo name : json) (r : reason)
  | MsgDeleting (repo name : json) (r : reason)
  | MsgDeleted (repo name : json)
  | MsgFailedToDelete (repo name : json)
  | MsgKeeping (repo name : json) (r : reason)
  | MsgRepoStats (st : stats) (dry : bool)
  | MsgBanner (cfg : Config)
  | MsgProcessing (n : nat)
  | MsgSummary (totals : stats) (dry : bool)
  | MsgErrors (n : Z)
  | MsgDryRunComplete
  | MsgRunFailed (e : exn)
  | MsgWillRetry
  | MsgMissingCredentials
  | MsgInvalidCron (expr : string)
  | MsgCronMode (expr : string)
  | MsgRunningImmediately
  | MsgSchedulerStopped.

Inductive event : Type :=
  | EvPost (u : url)
  | EvGet (u : url) (token : json)
  | EvDelete (u : url) (token : json)
  | EvLog (lvl : level) (m : message).

Record state (W : Type) : Type := mkState {
  world : W;
  trace : list event   (* oldest first *)
}.
Arguments mkState {W} world trace.
Arguments world {W} s.
Arguments trace {W} s.

(* ===================================================================== *)
(** ** The monad: state, exceptions, bounded loops *)
(* ===================================================================== *)

Definition M (W A : Type) : Type := state W -> outcome A * state W.

Definition ret {W A} (a : A) : M W A := fun s => (Ok a, s).

Definition bind {W A B} (m : M W A) (k : A -> M W B) : M W B :=
  fun s =>
    match m s with
    | (Ok a, s') => k a s'
    | (Raise e, s') => (Raise e, s')
    | (OutOfFuel, s') => (OutOfFuel, s')
    end.

Definition raise {W A} (e : exn) : M W A := fun s => (Raise e, s).

Definition out_of_fuel {W A} : M W A := fun s => (OutOfFuel, s).

Notation "x <- m ;; k" := (bind m (fun x => k))
  (at level 90, m at next level, right associativity).
Notation "m ;;; k" := (bind m (fun _ => k))
  (at level 90, right associativity).

Definition emit {W} (e : event) : M W unit :=
  fun s => (Ok tt, mkState (world s) (trace s ++ [e])).

Definition log {W} (lvl : level) (m : message) : M W unit := emit (EvLog lvl m).

(** [try: m except Exception as exc: h exc] *)
Definition try_except_Exception {W A} (m : M W A) (h : exn -> M W A) : M W A :=
  fun s =>
    match m s with
    | (Raise e, s') => if is_Exception e then h e s' else (Raise e, s')
    | r => r
    end.

(** One HTTP call: the request is recorded, the host answers. *)
Definition call {W} (ev : event)
    (f : W -> (request_failure + response) * W) : M W response :=
  fun s =>
    let '(r, w') := f (world s) in
    let s' := mkState w' (trace s ++ [ev]) in
    match r with
    | inl fl => (Raise (RequestError fl), s')
    | inr resp => (Ok resp, s')
    end.

(** [resp.raise_for_status()] *)
Definition raise_for_status {W} (resp : response) : M W unit :=
  if (400 <=? status_code resp) && (status_code resp <? 600)
  then raise (HTTPError (status_code resp))
  else ret tt.

(** [resp.json()] *)
Definition resp_json {W} (resp : response) : M W json :=
  match body resp with
  | Some v => ret v
  | None => raise JSONDecodeError
  end.

(** [d.get(k, default)]: only a dict has [.get]. *)
Definition py_get {W} (d : json) (k : string) (dflt : json) : M W json :=
  match d with
  | JObj items => ret (default dflt (items_lookup items k))
  | _ => raise AttributeError
  end.

(** [d[k]] for a string key. *)
Definition py_getitem {W} (d : json) (k : string) : M W json :=
  match d with
  | JObj items =>
      match items_lookup items k with
      | Some v => ret v
      | None => raise (KeyError k)
      end
  | _ => raise TypeError
  end.

(** Iterating a value, as [list.extend] does: a list yields its elements, a
    dict its keys, a string its characters; the rest is not iterable. *)
Definition iter_items (v : json) : option (list json) :=
  match v with
  | JList l => Some l
  | JObj items => Some (map (fun kv => JStr (fst kv)) items)
  | JStr s => Some (map (fun c => JStr (String c EmptyString)) (String.list_ascii_of_string s))
  | _ => None
  end.

Definition py_iter {W} (v : json) : M W (list json) :=
  match iter_items v with
  | Some l => ret l
  | None => raise TypeError
  end.

(** The numeric value of a number; [bool] is a number. *)
Definition num_of (v : json) : option Z :=
  match v with
  | JInt z => Some z
  | JBool b => Some (if b then 1 else 0)
  | _ => None
  end.

(** [a == b]: numbers by value, strings and null by identity of content,
    lists element by element, dicts by their keys and the values under
    them, whatever the order of the items. *)
Fixpoint py_eq (a b : json) {struct a} : bool :=
  match a, b with
  | JNull, JNull => true
  | JStr x, JStr y => String.eqb x y
  | JList la, JList lb =>
      (fix eq_all (la lb : list json) {struct la} : bool :=
         match la, lb with
         | [], [] => true
         | x :: la', y :: lb' => py_eq x y && eq_all la' lb'
         | _, _ => false
         end) la lb
  | JObj ia, JObj ib =>
      Nat.eqb (length ia) (length ib)
      && (fix sub (ia : list (string * json)) {struct ia} : bool :=
            match ia with
            | [] => true
            | (k, v) :: ia' =>
                match items_lookup ib k with
                | Some v' => py_eq v v'
                | None => false
                end && sub ia'
            end) ia
  | _, _ =>
      match num_of a, num_of b with
      | Some x, Some y => x =? y
      | _, _ => false
      end
  end.

(** [a < b] between sort keys: strings by code point, numbers by value,
    lists by their first pair of unequal elements (a proper prefix is
    smaller); [None] where Python raises [TypeError]: null, a dict, or two
    values of different kinds. *)
Fixpoint py_lt (a b : json) {struct a} : option bool :=
  match a, b with
  | JStr x, JStr y => Some (String.ltb x y)
  | JList la, JList lb =>
      (fix lt_all (la lb : list json) {struct la} : option bool :=
         match la, lb with
         | [], [] => Some false
         | [], _ :: _ => Some true
         | _ :: _, [] => Some false
         | x :: la', y :: lb' => if py_eq x y then lt_all la' lb' else py_lt x y
         end) la lb
  | _, _ =>
      match num_of a, num_of b with
      | Some x, Some y => Some (x <? y)
      | _, _ => None
      end
  end.

(** [sorted(xs, key=..., reverse=True)] on (key, element) pairs: stable and
    descending, so an element goes in front of the first one whose key is
    not greater than its own; [None] when a comparison raises [TypeError].
    The sort is written as an insertion sort: on keys that [<] orders the
    result of a stable sort is the same for every algorithm. *)
Fixpoint insert_desc (x : json * json) (l : list (json * json))
    : option (list (json * json)) :=
  match l with
  | [] => Some [x]
  | y :: rest =>
      match py_lt (fst x) (fst y) with
      | None => None
      | Some true =>
          match insert_desc x rest with
          | Some rest' => Some (y :: rest')
          | None => None
          end
      | Some false => Some (x :: l)
      end
  end.

Fixpoint sorted_desc (l : list (json * json)) : option (list (json * json)) :=
  match l with
  | [] => Some []
  | x :: rest =>
      match sorted_desc rest with
      | Some rest' => insert_desc x rest'
      | None => None
      end
  end.

(** The loop variable of [paginate] is truthy when it is one of the script's
    own URLs (a non-empty string) or a truthy ["next"] value. *)
Definition url_truthy (u : url) : bool :=
  match u with
  | NextUrl v => truthy v
  | _ => true
  end.

Definition add_stats (totals st : stats) : stats :=
  {| checked := checked totals + checked st;
     deleted := deleted totals + deleted st;
     kept := kept totals + kept st;
     errors := errors totals + errors st |}.

Definition zero_stats : stats :=
  {| checked := 0; deleted := 0; kept := 0; errors := 0 |}.

Definition incr_deleted (st : stats) : stats :=
  {| checked := checked st; deleted := deleted st + 1;
     kept := kept st; errors := errors st |}.

Definition incr_kept (st : stats) : stats :=
  {| checked := checked st; deleted := deleted st;
     kept := kept st + 1; errors := errors st |}.

Definition incr_errors (st : stats) : stats :=
  {| checked := checked st; deleted := deleted st;
     kept := kept st; errors := errors st + 1 |}.

(* ===================================================================== *)
(** ** The script *)
(* ===================================================================== *)

Definition US_PER_DAY : Z := 86400000000.

Section Script.
Context {W : Type} `{HW : Host W}.
Variable cfg : Config.

(** [get_token], lines 61-69. *)
Definition get_token : M W json :=
  resp <- call (EvPost LoginUrl)
            (requests_post LoginUrl (DOCKERHUB_USERNAME cfg, DOCKERHUB_TOKEN cfg)) ;;
  raise_for_status resp ;;;
  data <- resp_json resp ;;
  py_getitem data "token".

(** [evaluate_tag], lines 116-156. *)
Definition evaluate_tag (tag : json) (rank : Z) : M W (bool * reason) :=
  name <- py_get tag "name" (JStr "") ;;
  if py_in name (EXCLUDE_TAGS cfg) then ret (false, ExcludedTag name) else
  last_updated_str <- py_get tag "last_updated" (JStr "") ;;
  if negb (truthy last_updated_str) then ret (false, NoTimestamp) else
  match last_updated_str with
  | JStr s =>
      match datetime_fromisoformat (replace_Z s) with
      | None => raise ValueError
      | Some last_updated =>
          fun st =>
            let now := datetime_now (world st) in
            match last_updated with
            | Naive _ => (Raise TypeError, st)
            | Aware t =>
                let age_days := (now - t) / US_PER_DAY in
                let beyond_keep := KEEP_LAST_N cfg <=? rank in
                let old_enough := MIN_AGE_DAYS cfg <=? age_days in
                if beyond_keep && old_enough then
                  (Ok (true, BeyondKeepOldEnough (rank + 1) (KEEP_LAST_N cfg)
                               age_days (MIN_AGE_DAYS cfg)), st)
                else if negb beyond_keep then
                  (Ok (false, WithinKeepWindow (rank + 1) (KEEP_LAST_N cfg)), st)
                else
                  (Ok (false, TooYoung (rank + 1) age_days (MIN_AGE_DAYS cfg)), st)
            end
      end
  | _ => raise AttributeError
  end.

(** The number of pages one listing may follow before the model gives up;
    the source's [while url:] has no bound. *)
Variable fuel : nat.

(** The [while] loop of [paginate], lines 76-81. *)
Fixpoint paginate_loop (n : nat) (u : url) (token : json) (results : list json)
    : M W (list json) :=
  if negb (url_truthy u) then ret results else
  match n with
  | O => out_of_fuel
  | S n' =>
      resp <- call (EvGet u token) (requests_get u token) ;;
      raise_for_status resp ;;;
      data <- resp_json resp ;;
      page <- py_get data "results" (JList []) ;;
      items <- py_iter page ;;
      next <- py_get data "next" JNull ;;
      paginate_loop n' (NextUrl next) token (results ++ items)
  end.

(** [paginate], lines 72-82. *)
Definition paginate (u : url) (token : json) : M W (list json) :=
  paginate_loop fuel u token [].

(** [[r["name"] for r in repos]] *)
Fixpoint names_of (repos : list json) : M W (list json) :=
  match repos with
  | [] => ret []
  | r :: rest =>
      name <- py_getitem r "name" ;;
      names <- names_of rest ;;
      ret (name :: names)
  end.

(** [get_repositories], lines 85-89. *)
Definition get_repositories (token : json) : M W (list json) :=
  repos <- paginate (RepositoriesUrl (DOCKERHUB_NAMESPACE cfg)) token ;;
  names_of repos.

(** The sort keys [t.get("last_updated", "")], computed for every tag
    before any comparison. *)
Fixpoint keyed (tags : list json) : M W (list (json * json)) :=
  match tags with
  | [] => ret []
  | t :: rest =>
      k <- py_get t "last_updated" (JStr "") ;;
      ks <- keyed rest ;;
      ret ((k, t) :: ks)
  end.

(** [get_tags], lines 92-99. *)
Definition get_tags (token repo : json) : M W (list json) :=
  tags <- paginate (TagsUrl (DOCKERHUB_NAMESPACE cfg) repo) token ;;
  ks <- keyed tags ;;
  match sorted_desc ks with
  | Some l => ret (map snd l)
  | None => raise TypeError
  end.

(** [delete_tag], lines 102-109. *)
Definition delete_tag (token repo tag : json) : M W bool :=
  let u := TagUrl (DOCKERHUB_NAMESPACE cfg) repo tag in
  resp <- call (EvDelete u token) (requests_delete u token) ;;
  ret (status_code resp =? 204).

(** One iteration of the [for] loop of [process_repo], lines 170-187. *)
Definition process_tag (token repo : json) (rank : Z) (tag : json) (st : stats)
    : M W stats :=
  name <- py_get tag "name" (JStr "unknown") ;;
  d <- evaluate_tag tag rank ;;
  let (should_delete, why) := d in
  if should_delete then
    if DRY_RUN cfg then
      log INFO (MsgWouldDelete repo name why) ;;;
      ret (incr_deleted st)
    else
      log INFO (MsgDeleting repo name why) ;;;
      ok <- delete_tag token repo name ;;
      if ok then
        log INFO (MsgDeleted repo name) ;;;
        ret (incr_deleted st)
      else
        log ERROR (MsgFailedToDelete repo name) ;;;
        ret (incr_errors st)
  else
    log DEBUG (MsgKeeping repo name why) ;;;
    ret (incr_kept st).

(** [for rank, tag in enumerate(tags)], line 169. *)
Fixpoint process_tags (token repo : json) (rank : Z) (tags : list json) (st : stats)
    : M W stats :=
  match tags with
  | [] => ret st
  | tag :: rest =>
      st' <- process_tag token repo rank tag st ;;
      process_tags token repo (rank + 1) rest st'
  end.

(** [process_repo], lines 163-195. *)
Definition process_repo (token repo : json) : M W stats :=
  log INFO (MsgRepository (DOCKERHUB_NAMESPACE cfg) repo) ;;;
  tags <- get_tags token repo ;;
  st <- process_tags token repo 0 tags
          {| checked := Z.of_nat (length tags); deleted := 0; kept := 0; errors := 0 |} ;;
  log INFO (MsgRepoStats st (DRY_RUN cfg)) ;;;
  ret st.

(** The [for repo in repos] loop of [run_cleanup], lines 222-225. *)
Fixpoint process_repos (token : json) (repos : list json) (totals : stats)
    : M W stats :=
  match repos with
  | [] => ret totals
  | repo :: rest =>
      st <- process_repo token repo ;;
      process_repos token rest (add_stats totals st)
  end.

(** [run_cleanup], lines 202-239.  The banner (lines 204-213) and the
    summary (lines 227-233) are one log event each. *)
Definition run_cleanup : M W unit :=
  log INFO (MsgBanner cfg) ;;;
  token <- get_token ;;
  repos <- match REPOS_TO_CLEAN cfg with
           | [] => get_repositories token
           | _ :: _ => ret (map JStr (REPOS_TO_CLEAN cfg))
           end ;;
  log INFO (MsgProcessing (length repos)) ;;;
  totals <- process_repos token repos zero_stats ;;
  log INFO (MsgSummary totals (DRY_RUN cfg)) ;;;
  (if negb (errors totals =? 0) then log WARNING (MsgErrors (errors totals))
   else ret tt) ;;;
  if DRY_RUN cfg then log INFO MsgDryRunComplete else ret tt.

(** [safe_run_cleanup], lines 246-252. *)
Definition safe_run_cleanup : M W unit :=
  try_except_Exception run_cleanup
    (fun exc => log ERROR (MsgRunFailed exc) ;;; log INFO MsgWillRetry).

(** [scheduler.start()]: the job runs at every tick of the trigger, until
    the process is interrupted after [ticks] of them. *)
Fixpoint scheduler_start (job : M W unit) (ticks : nat) : M W unit :=
  match ticks with
  | O => raise KeyboardInterrupt
  | S n => job ;;; scheduler_start job n
  end.

(** [try: scheduler.start() except (KeyboardInterrupt, SystemExit): ...] *)
Definition try_except_interrupt (m : M W unit) (h : M W unit) : M W unit :=
  fun s =>
    match m s with
    | (Raise KeyboardInterrupt, s') => h s'
    | (Raise (SystemExit _), s') => h s'
    | r => r
    end.

(** [main], lines 255-284. *)
Definition main (ticks : nat) : M W unit :=
  if String.eqb (DOCKERHUB_USERNAME cfg) "" || String.eqb (DOCKERHUB_TOKEN cfg) "" then
    log ERROR MsgMissingCredentials ;;;
    raise (SystemExit 1)
  else if String.eqb (CRON_SCHEDULE cfg) "" then
    run_cleanup
  else
    match from_crontab (CRON_SCHEDULE cfg) with
    | None =>
        log ERROR (MsgInvalidCron (CRON_SCHEDULE cfg)) ;;;
        raise (SystemExit 1)
    | Some trigger =>
        log INFO (MsgCronMode (CRON_SCHEDULE cfg)) ;;;
        log INFO MsgRunningImmediately ;;;
        safe_run_cleanup ;;;
        try_except_interrupt (scheduler_start safe_run_cleanup ticks)
          (log INFO MsgSchedulerStopped)
    end.

End Script.

(** The exit status of the interpreter: 0 on a normal return, the code of
    [sys.exit], 1 after an uncaught exception. *)
Definition exit_status (r : outcome unit) : option Z :=
  match r with
  | Ok _ => Some 0
  | Raise (SystemExit c) => Some c
  | Raise _ => Some 1
  | OutOfFuel => None
  end.

(* ===================================================================== *)
(** ** Reading [DRY_RUN] from the environment, line 32 *)
(* ===================================================================== *)

(** [str.lower()] on code points below 256: A-Z, and the Latin-1 capitals
    192-222 except the multiplication sign 215. *)
Definition lower_char (c : ascii) : ascii :=
  let n := N_of_ascii c in
  if ((65 <=? n) && (n <=? 90))%N
     || ((192 <=? n) && (n <=? 222) && negb (n =? 215))%N
  then ascii_of_N (n + 32) else c.

Fixpoint lower (s : string) : string :=
  match s with
  | EmptyString => EmptyString
  | String c rest => String (lower_char c) (lower rest)
  end.

Definition os_getenv (environ : gmap string string) (k dflt : string) : string :=
  default dflt (environ !! k).

Definition load_DRY_RUN (environ : gmap string string) : bool :=
  existsb (String.eqb (lower (os_getenv environ "DRY_RUN" "true")))
    ["true"; "1"; "yes"]%string.

(* ===================================================================== *)
(** ** A scripted host, for running the script on concrete inputs *)
(* ===================================================================== *)

(** The registry answers the HTTP calls from a prepared list, one answer per
    call in the order the calls arrive (a call after the list has run out
    fails to connect); the clock stands still. *)
Record scripted : Type := mkScripted {
  answers : list (request_failure + response);
  clock : Z
}.

Definition next_answer (w : scripted) : (request_failure + response) * scripted :=
  match answers w with
  | [] => (inl ConnectionError, w)
  | a :: rest => (a, {| answers := rest; clock := clock w |})
  end.

(** Number of blank-separated fields of a cron expression. *)
Fixpoint count_fields (in_field : bool) (s : string) : nat :=
  match s with
  | EmptyString => 0%nat
  | String c rest =>
      if Ascii.eqb c " "%char then count_fields false rest
      else if in_field then count_fields true rest
      else S (count_fields true rest)
  end.

(** Timestamps are read from a table; a cron expression is accepted when it
    has five fields. *)
Definition scripted_host (calendar : list (string * datetime)) : Host scripted :=
  {| requests_post := fun _ _ => next_answer;
     requests_get := fun _ _ => next_answer;
     requests_delete := fun _ _ => next_answer;
     datetime_now := clock;
     datetime_fromisoformat := fun s =>
       snd <$> List.find (fun p => String.eqb (fst p) s) calendar;
     from_crontab := fun s =>
       if Nat.eqb (count_fields false s) 5 then Some (Trigger s) else None |}.

Definition start (answers : list (request_failure + response)) (now : Z)
    : state scripted :=
  mkState {| answers := answers; clock := now |} [].

Definition ok_json (v : json) : request_failure + response :=
  inr {| status_code := 200; body := Some v |}.

Definition status_only (code : Z) : request_failure + response :=
  inr {| status_code := code; body := None |}.

(* ===================================================================== *)
(** ** Observations used in the statements *)
(* ===================================================================== *)

(** [tag.get(k, dflt)] on a tag dict. *)
Definition tag_field (items : list (string * json)) (k : string) (dflt : json) : json :=
  default dflt (items_lookup items k).

(** The age in days that lines 140-141 compute from a timestamp value, when
    they compute one: the value is a string, it parses, and it carries a
    UTC offset. *)
Definition age_days_at `{HW : Host W} (now : Z) (ts : json) : option Z :=
  match ts with
  | JStr s =>
      match datetime_fromisoformat (replace_Z s) with
      | Some (Aware t) => Some ((now - t) / US_PER_DAY)
      | _ => None
      end
  | _ => None
  end.

(** [evaluate_tag] says delete. *)
Definition says_delete {W} (r : outcome (bool * reason) * state W) : Prop :=
  exists why, fst r = Ok (true, why).

(** What [evaluate_tag] answers in a given world; the log plays no part. *)
Definition verdict `{HW : Host W} (cfg : Config) (w : W) (tag : json) (rank : Z)
    : outcome (bool * reason) :=
  fst (evaluate_tag cfg tag rank (mkState w [])).

(** The delete predicate. *)
Definition deletes `{HW : Host W} (cfg : Config) (w : W) (tag : json) (rank : Z) : bool :=
  match verdict cfg w tag rank with
  | Ok (true, _) => true
  | _ => false
  end.

Definition evaluates `{HW : Host W} (cfg : Config) (w : W) (tag : json) (rank : Z) : bool :=
  match verdict cfg w tag rank with
  | Ok _ => true
  | _ => false
  end.

(** The tags of a ranked list that satisfy the delete predicate, in rank
    order; [rank] is the rank of the first tag. *)
Fixpoint eligible `{HW : Host W} (cfg : Config) (w : W) (rank : Z) (tags : list json)
    : list json :=
  match tags with
  | [] => []
  | t :: rest =>
      if deletes cfg w t rank then t :: eligible cfg w (rank + 1) rest
      else eligible cfg w (rank + 1) rest
  end.

Fixpoint all_evaluate `{HW : Host W} (cfg : Config) (w : W) (rank : Z) (tags : list json)
    : bool :=
  match tags with
  | [] => true
  | t :: rest => evaluates cfg w t rank && all_evaluate cfg w (rank + 1) rest
  end.

(** The name [process_repo] logs and deletes under: [tag.get("name", "unknown")]. *)
Definition tag_name (tag : json) : json :=
  match tag with
  | JObj items => tag_field items "name" (JStr "unknown")
  | _ => JStr "unknown"
  end.

(** The URL [delete_tag] addresses for a tag. *)
Definition tag_url (cfg : Config) (repo tag : json) : url :=
  TagUrl (DOCKERHUB_NAMESPACE cfg) repo (tag_name tag).

(** A state after more log lines or requests were recorded. *)
Definition logged {W} (s : state W) (evs : list event) : state W :=
  mkState (world s) (trace s ++ evs).

(** The delete requests recorded in a trace, oldest first. *)
Definition delete_calls (tr : list event) : list url :=
  omap (fun e => match e with EvDelete u _ => Some u | _ => None end) tr.

(** The answers a sequence of delete requests gets from the registry, as
    [delete_tag] reads them: [true] for a 204. *)
Fixpoint delete_results `{HW : Host W} (w : W) (token : json) (urls : list url)
    : list bool :=
  match urls with
  | [] => []
  | u :: rest =>
      let '(r, w') := requests_delete u token w in
      match r with
      | inr resp => (status_code resp =? 204) :: delete_results w' token rest
      | inl _ => []
      end
  end.

Definition count_true (l : list bool) : Z := Z.of_nat (length (List.filter id l)).
Definition count_false (l : list bool) : Z := Z.of_nat (length (List.filter negb l)).

(** Every tag seen is in exactly one outcome bucket. *)
Definition partitioned (st : stats) : Prop :=
  checked st = deleted st + kept st + errors st.

(** [m] takes every state to one related to it by [R], and raises only
    exceptions in [E]. *)
Definition respects {W A} (R : state W -> state W -> Prop) (E : exn -> Prop)
    (m : M W A) : Prop :=
  forall s, R s (snd (m s)) /\ forall e, fst (m s) = Raise e -> E e.

(** A computation that records no delete request, however it ends. *)
Definition no_delete {W A} (m : M W A) : Prop :=
  forall s, delete_calls (trace (snd (m s))) = delete_calls (trace s).

(** The counters [process_repo] reports for a repository whose [eligible]
    tags got the given answers to their delete requests. *)
Definition tally (st : stats) (n_tags n_eligible : nat) (results : list bool) : stats :=
  {| checked := checked st;
     deleted := deleted st + count_true results;
     kept := kept st + (Z.of_nat n_tags - Z.of_nat n_eligible);
     errors := errors st + count_false results |}.

(** What one page request of [paginate] comes to (lines 77-81): the
    exception it raises, or the page's results and its ["next"] value. *)
Definition read_page (resp : response) : exn + (list json * json) :=
  if (400 <=? status_code resp) && (status_code resp <? 600)
  then inl (HTTPError (status_code resp))
  else match body resp with
       | None => inl JSONDecodeError
       | Some (JObj items) =>
           match iter_items (default (JList []) (items_lookup items "results")) with
           | Some l => inr (l, default JNull (items_lookup items "next"))
           | None => inl TypeError
           end
       | Some _ => inl AttributeError
       end.

Definition fetch `{HW : Host W} (token : json) (w : W) (u : url)
    : (exn + (list json * json)) * W :=
  let (r, w') := requests_get u token w in
  (match r with
   | inl f => inl (RequestError f)
   | inr resp => read_page resp
   end, w').

(** The registry serves, from world [w] and starting at [u], the given pages
    one after the other, the last of them with an exhausted cursor. *)
Inductive serves `{HW : Host W} (token : json) : W -> url -> list (list json) -> W -> Prop :=
  | serves_done w u :
      url_truthy u = false ->
      serves token w u [] w
  | serves_page w u items next w' rest w'' :
      url_truthy u = true ->
      fetch token w u = (inr (items, next), w') ->
      serves token w' (NextUrl next) rest w'' ->
      serves token w u (items :: rest) w''.

(** The [n]-th request of a listing fails with [e], the ones before it
    having gone through. *)
Inductive breaks `{HW : Host W} (token : json) : W -> url -> nat -> exn -> Prop :=
  | breaks_here w u e w' :
      url_truthy u = true ->
      fetch token w u = (inl e, w') ->
      breaks token w u 1 e
  | breaks_later w u items next w' n e :
      url_truthy u = true ->
      fetch token w u = (inr (items, next), w') ->
      breaks token w' (NextUrl next) n e ->
      breaks token w u (S n) e.

(** The trace only gets longer. *)
Definition grows {W} (s s' : state W) : Prop :=
  exists tr, trace s' = trace s ++ tr.

(** A repository is attempted when [process_repo] was entered for it: its
    "Repository:" line is in the log. *)
Definition attempted (cfg : Config) (tr : list event) (repo : json) : Prop :=
  In (EvLog INFO (MsgRepository (DOCKERHUB_NAMESPACE cfg) repo)) tr.

(** C3 as the specification words it, for a configured target list: once the
    targets are known, each of them is attempted, whatever happens to the
    others. *)
Definition targets_attempted `{HW : Host W} (cfg : Config) (fuel : nat) (s : state W)
    : Prop :=
  In (EvLog INFO (MsgProcessing (length (REPOS_TO_CLEAN cfg))))
     (trace (snd (run_cleanup cfg fuel s))) ->
  forall repo, In repo (REPOS_TO_CLEAN cfg) ->
    attempted cfg (trace (snd (run_cleanup cfg fuel s))) (JStr repo).

(** The state after [n] scheduled runs, each starting where the previous one
    stopped. *)
Fixpoint after_runs `{HW : Host W} (cfg : Config) (fuel : nat) (n : nat) (s : state W)
    : state W :=
  match n with
  | O => s
  | S n' => after_runs cfg fuel n' (snd (safe_run_cleanup cfg fuel s))
  end.

(* ===================================================================== *)
(** ** The list-valued settings, lines 33-42 *)
(* ===================================================================== *)

(** [str.isspace] on code points below 256: tab to carriage return, the
    four separators 28-31, space, next-line (133) and no-break space (160). *)
Definition is_space (c : ascii) : bool :=
  let n := N_of_ascii c in
  (((9 <=? n) && (n <=? 13)) || ((28 <=? n) && (n <=? 32))
   || (n =? 133) || (n =? 160))%N.

Fixpoint lstrip (s : string) : string :=
  match s with
  | EmptyString => EmptyString
  | String c rest => if is_space c then lstrip rest else s
  end.

Fixpoint rstrip (s : string) : string :=
  match s with
  | EmptyString => EmptyString
  | String c rest =>
      match rstrip rest with
      | EmptyString => if is_space c then EmptyString else String c EmptyString
      | rest' => String c rest'
      end
  end.

(** [s.strip()] *)
Definition strip (s : string) : string := lstrip (rstrip s).

(** [s.split(",")]: always at least one piece. *)
Fixpoint split_comma (s : string) : list string :=
  match s with
  | EmptyString => [EmptyString]
  | String c rest =>
      if Ascii.eqb c ","%char then EmptyString :: split_comma rest
      else match split_comma rest with
           | piece :: pieces => String c piece :: pieces
           | [] => [String c EmptyString]
           end
  end.

(** [[r.strip() for r in v.split(",") if r.strip()]] *)
Definition parse_list (v : string) : list string :=
  List.filter (fun r => negb (String.eqb r "")) (map strip (split_comma v)).

Definition load_REPOS_TO_CLEAN (environ : gmap string string) : list string :=
  parse_list (os_getenv environ "REPOS_TO_CLEAN" "").

Definition load_EXCLUDE_TAGS (environ : gmap string string) : list string :=
  parse_list (os_getenv environ "EXCLUDE_TAGS" "latest").

Definition load_CRON_SCHEDULE (environ : gmap string string) : string :=
  strip (os_getenv environ "CRON_SCHEDULE" "").

Fixpoint no_comma (s : string) : bool :=
  match s with
  | EmptyString => true
  | String c rest => negb (Ascii.eqb c ","%char) && no_comma rest
  end.

(** A name that survives the parsing as it is. *)
Definition clean_name (x : string) : Prop :=
  x <> EmptyString /\ no_comma x = true /\ strip x = x.

Fixpoint all_blank (s : string) : bool :=
  match s with
  | EmptyString => true
  | String c rest => is_space c && all_blank rest
  end.

(** A value made of nothing but whitespace and commas. *)
Fixpoint only_blanks_and_commas (s : string) : bool :=
  match s with
  | EmptyString => true
  | String c rest => (is_space c || Ascii.eqb c ","%char) && only_blanks_and_commas rest
  end.

(* ===================================================================== *)
(** ** More observations *)
(* ===================================================================== *)

(** The sort key of a tag, [t.get("last_updated", "")]. *)
Definition sort_key (tag : json) : json :=
  match tag with
  | JObj items => tag_field items "last_updated" (JStr "")
  | _ => JStr ""
  end.

Definition is_dict (v : json) : Prop := exists items, v = JObj items.

(** No key is smaller than the one after it. *)
Fixpoint descending (keys : list json) : Prop :=
  match keys with
  | a :: (b :: _) as rest => py_lt a b = Some false /\ descending rest
  | _ => True
  end.

(** The requests of any kind recorded in a trace. *)
Definition requests_in (tr : list event) : list event :=
  List.filter (fun e => match e with EvLog _ _ => false | _ => true end) tr.

(** [a] is not smaller than [b]: [b < a], or [a < b] is false. *)
Definition not_smaller (a b : json) : Prop :=
  py_lt b a = Some true \/ py_lt a b = Some false.

(** No key is smaller than the one after it, as [get_tags] leaves them. *)
Fixpoint newest_first (keys : list json) : Prop :=
  match keys with
  | a :: (b :: _) as rest => not_smaller a b /\ newest_first rest
  | _ => True
  end.

(** A sort key is the string [k]; a tag's [last_updated] is. *)
Definition key_is (k : string) (key : json) : bool :=
  match key with
  | JStr s => String.eqb s k
  | _ => false
  end.

Definition has_timestamp (k : string) (tag : json) : bool := key_is k (sort_key tag).

(** A class of sort keys none of which is smaller than another, such as
    the keys equal to one timestamp: a stable sort leaves the elements of
    such a class in the order it found them. *)
Definition unordered_class (P : json -> bool) : Prop :=
  forall a b, P a = true -> P b = true -> py_lt a b <> Some true.

(** The sort key is the empty list. *)
Definition key_is_empty_list (key : json) : bool :=
  match key with
  | JList [] => true
  | _ => false
  end.

(** The tags found eligible when their turn comes in a live run: the world
    a tag is evaluated in is the one the delete requests before it left. *)
Fixpoint eligible_in_turn `{HW : Host W} (cfg : Config) (token repo : json)
    (w : W) (rank : Z) (tags : list json) : list json :=
  match tags with
  | [] => []
  | t :: rest =>
      if deletes cfg w t rank
      then t :: eligible_in_turn cfg token repo
                  (snd (requests_delete (tag_url cfg repo t) token w)) (rank + 1) rest
      else eligible_in_turn cfg token repo w (rank + 1) rest
  end.

Fixpoint all_evaluate_in_turn `{HW : Host W} (cfg : Config) (token repo : json)
    (w : W) (rank : Z) (tags : list json) : bool :=
  match tags with
  | [] => true
  | t :: rest =>
      evaluates cfg w t rank
      && all_evaluate_in_turn cfg token repo
           (if deletes cfg w t rank
            then snd (requests_delete (tag_url cfg repo t) token w) else w)
           (rank + 1) rest
  end.

(** C6 as the specification words it: whatever becomes of a deletion,
    [process_repo] does not raise and every eligible tag of the listing gets
    its delete request. *)
Definition every_eligible_tag_requested `{HW : Host W} (cfg : Config) (fuel : nat)
    (token repo : json) (s : state W) : Prop :=
  forall tags s1,
    get_tags cfg fuel token repo
      (logged s [EvLog INFO (MsgRepository (DOCKERHUB_NAMESPACE cfg) repo)])
      = (Ok tags, s1) ->
    (forall e, fst (process_repo cfg fuel token repo s) <> Raise e)
    /\ forall t, In t (eligible cfg (world s1) 0 tags) ->
         In (tag_url cfg repo t)
            (delete_calls (trace (snd (process_repo cfg fuel token repo s)))).

(** None of the first [n] scheduled runs from [s] is still paginating when
    the bound on pages is reached. *)
Fixpoint runs_complete `{HW : Host W} (cfg : Config) (fuel : nat) (n : nat) (s : state W)
    : bool :=
  match n with
  | O => true
  | S n' =>
      match safe_run_cleanup cfg fuel s with
      | (OutOfFuel, _) => false
      | (_, s') => runs_complete cfg fuel n' s'
      end
  end.

(** The tags a trace shows as picked for deletion: the "would delete" lines
    of a dry run and the "Deleting" lines of a live one. *)
Definition picked_for_deletion (tr : list event) : list json :=
  omap (fun e => match e with
                 | EvLog _ (MsgWouldDelete _ name _) => Some name
                 | EvLog _ (MsgDeleting _ name _) => Some name
                 | _ => None
                 end) tr.

(** A registry whose every page points to a further page. *)
Definition endless_page : json :=
  JObj [ ("next", JStr "https://hub.docker.com/v2/repositories/acme/?page=2");
         ("results", JList [JObj [ ("name", JStr "app") ]]) ]%string.

Definition endless_host : Host unit :=
  {| requests_post := fun _ _ w => (inl ConnectionError, w);
     requests_get := fun _ _ w => (inr {| status_code := 200; body := Some endless_page |}, w);
     requests_delete := fun _ _ w => (inl ConnectionError, w);
     datetime_now := fun _ => 0;
     datetime_fromisoformat := fun _ => None;
     from_crontab := fun _ => None |}.

(* ===================================================================== *)
(** ** Sample data: a namespace in March 2024 *)
(* ===================================================================== *)

Definition march_2024 (day : Z) : Z := (1709251200 + (day - 1) * 86400) * 1000000.

(** What [fromisoformat] makes of the timestamps used below. *)
Definition calendar : list (string * datetime) :=
  [ ("2024-03-01T00:00:00+00:00", Aware (march_2024 1));
    ("2024-03-10T00:00:00+00:00", Aware (march_2024 10));
    ("2024-03-20T00:00:00+00:00", Aware (march_2024 20));
    ("2024-03-24T12:00:00+00:00", Aware (march_2024 24 + 43200000000));
    ("2024-03-30T00:00:00+00:00", Aware (march_2024 30));
    ("2024-03-20T00:00:00", Naive (march_2024 20)) ]%string.

(** Noon on 31 March 2024. *)
Definition noon_31_march : Z := march_2024 31 + 43200000000.

Definition mk_tag (name last_updated : string) : list (string * json) :=
  [ ("name", JStr name); ("last_updated", JStr last_updated) ]%string.

Definition tag_v1 := mk_tag "v1" "2024-03-01T00:00:00Z".      (* 30 days old *)
Definition tag_v2 := mk_tag "v2" "2024-03-10T00:00:00Z".      (* 21 days old *)
Definition tag_v3 := mk_tag "v3" "2024-03-20T00:00:00Z".      (* 11 days old *)
Definition tag_v4 := mk_tag "v4" "2024-03-24T12:00:00Z".      (* 7 days old, to the second *)
Definition tag_v5 := mk_tag "v5" "2024-03-30T00:00:00Z".      (* 1 day old *)
Definition tag_latest := mk_tag "latest" "2024-03-01T00:00:00Z".
Definition tag_undated : list (string * json) := [ ("name", JStr "v0") ]%string.
Definition tag_null_date : list (string * json) :=
  [ ("name", JStr "v0"); ("last_updated", JNull) ]%string.

(** keep 3, at least 7 days old, "latest" excluded. *)
Definition sample_cfg (dry : bool) (repos : list string) (cron : string) : Config :=
  {| DOCKERHUB_USERNAME := "user";
     DOCKERHUB_TOKEN := "secret";
     DOCKERHUB_NAMESPACE := "acme";
     KEEP_LAST_N := 3;
     MIN_AGE_DAYS := 7;
     DRY_RUN := dry;
     REPOS_TO_CLEAN := repos;
     EXCLUDE_TAGS := ["latest"%string];
     CRON_SCHEDULE := cron |}.

Definition dry_cfg : Config := sample_cfg true [] "".
Definition live_cfg : Config := sample_cfg false [] "".

(** The tag listing of repository "app", in two pages and in no order. *)
Definition app_page_1 : json :=
  JObj [ ("count", JInt 5);
         ("next", JStr "https://hub.docker.com/v2/repositories/acme/app/tags/?page=2&page_size=100");
         ("results", JList [JObj tag_v3; JObj tag_v1; JObj tag_v5]) ]%string.

Definition app_page_2 : json :=
  JObj [ ("count", JInt 5);
         ("next", JNull);
         ("results", JList [JObj tag_v2; JObj tag_v4]) ]%string.

Definition jwt : json := JStr "jwt".
Definition app : json := JStr "app".

(** The listing, then the answers to two delete requests: done, not found. *)
Definition app_answers : list (request_failure + response) :=
  [ ok_json app_page_1; ok_json app_page_2; status_only 204; status_only 404 ].

Definition login_ok : request_failure + response :=
  ok_json (JObj [ ("token", jwt) ]%string).

(** Two configured repositories, live. *)
Definition two_repo_cfg : Config := sample_cfg false ["app"; "web"]%string "".

(** The login endpoint answers 503 twice, then hands out a token. *)
Definition flaky_login_answers : list (request_failure + response) :=
  [ status_only 503; status_only 503; ok_json (JObj [ ("token", JStr "retried") ]%string) ].

(** Weekly at 03:00 on Sunday, over repository "app". *)
Definition cron_cfg : Config := sample_cfg true ["app"%string] "0 3 * * 0".
Definition bad_cron_cfg : Config := sample_cfg true ["app"%string] "every sunday".

Definition environ_with (v : string) : gmap string string := {[ "DRY_RUN"%string := v ]}.
Definition environ_with_key (k v : string) : gmap string string := {[ k := v ]}.

Definition app_pages : list (list json) :=
  [ [JObj tag_v3; JObj tag_v1; JObj tag_v5]; [JObj tag_v2; JObj tag_v4] ].

(** The listing of "app", then a delete request that times out. *)
Definition timeout_answers : list (request_failure + response) :=
  [ ok_json app_page_1; ok_json app_page_2; inl Timeout; status_only 204 ].

(** Three tags, two of them updated at the same instant. *)
Definition tag_v3_twin := mk_tag "v3-twin" "2024-03-20T00:00:00Z".

Definition twin_page : json :=
  JObj [ ("next", JNull);
         ("results", JList [JObj tag_v3; JObj tag_v5; JObj tag_v3_twin]) ]%string.

(** Two tags whose [last_updated] is an empty list. *)
Definition tag_listed_a : list (string * json) :=
  [ ("name", JStr "a"); ("last_updated", JList []) ]%string.
Definition tag_listed_b : list (string * json) :=
  [ ("name", JStr "b"); ("last_updated", JList []) ]%string.

Definition list_date_page : json :=
  JObj [ ("next", JNull);
         ("results", JList [JObj tag_listed_a; JObj tag_listed_b]) ]%string.

(** A listing with a tag whose timestamp is null. *)
Definition null_date_page : json :=
  JObj [ ("next", JNull);
         ("results", JList [JObj tag_v3; JObj tag_null_date]) ]%string.

(** The namespace listing: two repositories. *)
Definition namespace_page : json :=
  JObj [ ("next", JNull);
         ("results", JList [ JObj [ ("name", JStr "app"); ("is_private", JBool false) ];
                             JObj [ ("name", JStr "web"); ("is_private", JBool true) ] ]) ]%string.

(** "unknown" is excluded, "latest" is not. *)
Definition unknown_excluded_cfg : Config :=
  {| DOCKERHUB_USERNAME := "user";
     DOCKERHUB_TOKEN := "secret";
     DOCKERHUB_NAMESPACE := "acme";
     KEEP_LAST_N := 3;
     MIN_AGE_DAYS := 7;
     DRY_RUN := false;
     REPOS_TO_CLEAN := [];
     EXCLUDE_TAGS := ["unknown"%string];
     CRON_SCHEDULE := "" |}.

(** A tag dict with a timestamp and no name. *)
Definition tag_nameless : list (string * json) :=
  [ ("last_updated", JStr "2024-03-01T00:00:00Z") ]%string.

(* ===================================================================== *)
(** ** The retention rule *)
(* ===================================================================== *)

Section Retention.
Context {W : Type} `{HW : Host W}.
Variable cfg : Config.

(** [evaluate_tag] reads the world and leaves it as it was. *)
Lemma evaluate_tag_pure tag rank (s : state W) :
  snd (evaluate_tag cfg tag rank s) = s.
Proof.
  unfold evaluate_tag, bind, py_get, ret, raise.
  destruct tag; simpl; try reflexivity.
  destruct (py_in _ _); simpl; [reflexivity|].
  destruct (truthy _); simpl; [|reflexivity].
  destruct (default _ (items_lookup items "last_updated")); simpl; try reflexivity.
  destruct (datetime_fromisoformat _) as [[t|t]|]; simpl; try reflexivity.
  destruct (_ && _); [reflexivity|].
  destruct (negb _); reflexivity.
Qed.

(** The outcome on a dict whose name is not excluded and whose timestamp
    yields an age. *)
Lemma evaluate_tag_dated items rank (s : state W) age :
  py_in (tag_field items "name" (JStr "")) (EXCLUDE_TAGS cfg) = false ->
  truthy (tag_field items "last_updated" (JStr "")) = true ->
  age_days_at (datetime_now (world s)) (tag_field items "last_updated" (JStr ""))
    = Some age ->
  fst (evaluate_tag cfg (JObj items) rank s) =
    if (KEEP_LAST_N cfg <=? rank) && (MIN_AGE_DAYS cfg <=? age)
    then Ok (true, BeyondKeepOldEnough (rank + 1) (KEEP_LAST_N cfg) age (MIN_AGE_DAYS cfg))
    else if negb (KEEP_LAST_N cfg <=? rank)
    then Ok (false, WithinKeepWindow (rank + 1) (KEEP_LAST_N cfg))
    else Ok (false, TooYoung (rank + 1) age (MIN_AGE_DAYS cfg)).
Proof.
  unfold tag_field, age_days_at, evaluate_tag, bind, py_get, ret, raise.
  intros Hex Hts Hage. simpl. rewrite Hex. simpl. rewrite Hts. simpl.
  destruct (default _ (items_lookup items "last_updated")); try discriminate.
  destruct (datetime_fromisoformat _) as [[t|t]|]; try discriminate.
  injection Hage as <-.
  destruct (_ && _); [reflexivity|].
  destruct (negb _); reflexivity.
Qed.

(** Without an age there is no delete. *)
Lemma evaluate_tag_undated items rank (s : state W) :
  age_days_at (datetime_now (world s)) (tag_field items "last_updated" (JStr ""))
    = None ->
  ~ says_delete (evaluate_tag cfg (JObj items) rank s).
Proof.
  unfold tag_field, age_days_at, says_delete, evaluate_tag, bind, py_get, ret, raise.
  intros Hage [why Hd]. simpl in Hd.
  destruct (py_in _ _); simpl in Hd; [discriminate|].
  destruct (truthy _); simpl in Hd; [|discriminate].
  destruct (default _ (items_lookup items "last_updated")); try discriminate.
  destruct (datetime_fromisoformat _) as [[t|t]|]; discriminate.
Qed.

Lemma evaluate_tag_eq tag rank (s : state W) :
  evaluate_tag cfg tag rank s = (verdict cfg (world s) tag rank, s).
Proof.
  unfold verdict, evaluate_tag, bind, py_get, ret, raise.
  destruct tag; simpl; try reflexivity.
  destruct (py_in _ _); simpl; [reflexivity|].
  destruct (truthy _); simpl; [|reflexivity].
  destruct (default _ (items_lookup items "last_updated")); simpl; try reflexivity.
  destruct (datetime_fromisoformat _) as [[t|t]|]; simpl; try reflexivity.
  destruct (_ && _); [reflexivity|].
  destruct (negb _); reflexivity.
Qed.

Lemma verdict_in_fuel w tag rank : verdict cfg w tag rank <> OutOfFuel.
Proof.
  unfold verdict, evaluate_tag, bind, py_get, ret, raise.
  destruct tag; simpl; try discriminate.
  destruct (py_in _ _); simpl; [discriminate|].
  destruct (truthy _); simpl; [|discriminate].
  destruct (default _ (items_lookup items "last_updated")); simpl; try discriminate.
  destruct (datetime_fromisoformat _) as [[t|t]|]; simpl; try discriminate.
  destruct (_ && _); [discriminate|].
  destruct (negb _); discriminate.
Qed.

(** What is not a dict has no verdict. *)
Lemma verdict_needs_dict w tag rank v :
  verdict cfg w tag rank = Ok v -> exists items, tag = JObj items.
Proof.
  destruct tag; try discriminate. intros _. eexists. reflexivity.
Qed.

(** The verdict looks at the world through the clock only. *)
Lemma verdict_clock w w' tag rank :
  datetime_now w' = datetime_now w -> verdict cfg w' tag rank = verdict cfg w tag rank.
Proof.
  intros Hc. unfold verdict, evaluate_tag, bind, py_get, ret, raise.
  destruct tag; simpl; try reflexivity.
  destruct (py_in _ _); simpl; [reflexivity|].
  destruct (truthy _); simpl; [|reflexivity].
  destruct (default _ (items_lookup items "last_updated")); simpl; try reflexivity.
  destruct (datetime_fromisoformat _) as [[t|t]|]; simpl; try reflexivity.
  rewrite Hc. destruct (_ && _); [reflexivity|].
  destruct (negb _); reflexivity.
Qed.

Lemma verdict_Exception w tag rank e :
  verdict cfg w tag rank = Raise e -> is_Exception e = true.
Proof.
  unfold verdict, evaluate_tag, bind, py_get, ret, raise.
  destruct tag; simpl; try (intros [= <-]; reflexivity).
  destruct (py_in _ _); simpl; [discriminate|].
  destruct (truthy _); simpl; [|discriminate].
  destruct (default _ (items_lookup items "last_updated")); simpl;
    try (intros [= <-]; reflexivity).
  destruct (datetime_fromisoformat _) as [[t|t]|]; simpl;
    try (intros [= <-]; reflexivity).
  destruct (_ && _); [discriminate|].
  destruct (negb _); discriminate.
Qed.

(** C2. For a tag whose name is not in [EXCLUDE_TAGS] and whose
    [last_updated] is present, at every rank, [evaluate_tag] returns delete
    exactly when [rank >= KEEP_LAST_N] and [age_days >= MIN_AGE_DAYS], the
    age being the one lines 140-141 compute.  Both comparisons are
    inclusive: rank equal to [KEEP_LAST_N] with age equal to
    [MIN_AGE_DAYS] is deleted, while rank [KEEP_LAST_N - 1] is kept and
    age [MIN_AGE_DAYS - 1] is kept. *)
Theorem evaluate_tag_delete_iff items rank (s : state W) :
  let ts := tag_field items "last_updated" (JStr "") in
  let now := datetime_now (world s) in
  py_in (tag_field items "name" (JStr "")) (EXCLUDE_TAGS cfg) = false ->
  truthy ts = true ->
  (says_delete (evaluate_tag cfg (JObj items) rank s) <->
     exists age, age_days_at now ts = Some age
                 /\ KEEP_LAST_N cfg <= rank /\ MIN_AGE_DAYS cfg <= age)
  /\ (forall age, age_days_at now ts = Some age ->
        (rank = KEEP_LAST_N cfg -> age = MIN_AGE_DAYS cfg ->
           says_delete (evaluate_tag cfg (JObj items) rank s))
        /\ (rank = KEEP_LAST_N cfg - 1 ->
              ~ says_delete (evaluate_tag cfg (JObj items) rank s))
        /\ (age = MIN_AGE_DAYS cfg - 1 ->
              ~ says_delete (evaluate_tag cfg (JObj items) rank s))).
Proof.
  intros ts now Hex Hts.
  assert (Hiff : says_delete (evaluate_tag cfg (JObj items) rank s) <->
     exists age, age_days_at now ts = Some age
                 /\ KEEP_LAST_N cfg <= rank /\ MIN_AGE_DAYS cfg <= age).
  { destruct (age_days_at now ts) as [age|] eqn:Hage.
    - unfold says_delete.
      rewrite (evaluate_tag_dated items rank s age Hex Hts Hage).
      destruct (Z.leb_spec (KEEP_LAST_N cfg) rank) as [Hk|Hk];
        destruct (Z.leb_spec (MIN_AGE_DAYS cfg) age) as [Ha|Ha]; simpl; split.
      all: try (intros _; exists age; split; [reflexivity|split; lia]).
      all: try (intros _; eexists; reflexivity).
      all: try (intros [why Hw]; discriminate).
      all: intros (age' & Heq & ? & ?); injection Heq as <-; lia.
    - split.
      + intros Hd. exfalso. exact (evaluate_tag_undated items rank s Hage Hd).
      + intros (age & Hs & _). discriminate. }
  split; [exact Hiff|].
  intros age Hage. repeat split.
  - intros Hr Ha. apply Hiff. exists age. split; [exact Hage|split; lia].
  - intros Hr Hd. apply Hiff in Hd. destruct Hd as (age' & _ & Hk & _). lia.
  - intros Ha Hd. apply Hiff in Hd. destruct Hd as (age' & Heq & _ & Hm).
    rewrite Hage in Heq. injection Heq as <-. lia.
Qed.

(** C4. A tag whose name is in [EXCLUDE_TAGS] is kept with the reason
    "excluded" whatever its rank and whatever its [last_updated] holds (the
    check comes first), and a tag whose [last_updated] is absent, null or
    empty is kept: in both cases [evaluate_tag] returns [False] and never
    delete, for every rank and configuration. *)
Theorem evaluate_tag_keeps_excluded_and_undated items rank (s : state W) :
  let name := tag_field items "name" (JStr "") in
  let ts := tag_field items "last_updated" (JStr "") in
  (py_in name (EXCLUDE_TAGS cfg) = true ->
     evaluate_tag cfg (JObj items) rank s = (Ok (false, ExcludedTag name), s))
  /\ (truthy ts = false ->
        exists why, evaluate_tag cfg (JObj items) rank s = (Ok (false, why), s))
  /\ (py_in name (EXCLUDE_TAGS cfg) = true \/ truthy ts = false ->
        ~ says_delete (evaluate_tag cfg (JObj items) rank s)).
Proof.
  intros name ts.
  assert (Hx : py_in name (EXCLUDE_TAGS cfg) = true ->
     evaluate_tag cfg (JObj items) rank s = (Ok (false, ExcludedTag name), s)).
  { intros Hin. unfold evaluate_tag, bind, py_get, ret. simpl.
    fold (tag_field items "name" (JStr "")). fold name. rewrite Hin. reflexivity. }
  assert (Hu : truthy ts = false ->
     exists why, evaluate_tag cfg (JObj items) rank s = (Ok (false, why), s)).
  { intros Hts. destruct (py_in name (EXCLUDE_TAGS cfg)) eqn:Hin.
    - eexists. apply Hx. reflexivity.
    - exists NoTimestamp. unfold evaluate_tag, bind, py_get, ret. simpl.
      fold (tag_field items "name" (JStr "")). fold name. rewrite Hin. simpl.
      fold (tag_field items "last_updated" (JStr "")). fold ts. rewrite Hts.
      reflexivity. }
  split; [exact Hx|]. split; [exact Hu|].
  intros [Hin|Hts] [why Hd].
  - rewrite (Hx Hin) in Hd. discriminate.
  - destruct (Hu Hts) as [why' Hk]. rewrite Hk in Hd. discriminate.
Qed.

End Retention.

(* ===================================================================== *)
(** ** Pagination *)
(* ===================================================================== *)

Section Pagination.
Context {W : Type} `{HW : Host W}.
Variable token : json.

(** One turn of the [while] loop. *)
Lemma paginate_loop_step n u results (s : state W) :
  url_truthy u = true ->
  paginate_loop (S n) u token results s =
    match fetch token (world s) u with
    | (inl e, w') => (Raise e, mkState w' (trace s ++ [EvGet u token]))
    | (inr (items, next), w') =>
        paginate_loop n (NextUrl next) token (results ++ items)
          (mkState w' (trace s ++ [EvGet u token]))
    end.
Proof.
  intros Hu. cbn [paginate_loop]. rewrite Hu. cbn [negb].
  unfold fetch, read_page, bind at 1, call.
  destruct (requests_get u token (world s)) as [[f|resp] w']; [reflexivity|].
  unfold bind at 1, raise_for_status.
  destruct ((400 <=? status_code resp) && (status_code resp <? 600)); [reflexivity|].
  unfold ret at 1. unfold bind at 1, resp_json.
  destruct (body resp) as [data|]; [|reflexivity].
  unfold ret at 1. unfold bind at 1, py_get.
  destruct data; try reflexivity.
  unfold ret at 1. unfold bind at 1, py_iter.
  destruct (iter_items _) as [l|]; reflexivity.
Qed.

Lemma paginate_loop_done n u results (s : state W) :
  url_truthy u = false -> paginate_loop n u token results s = (Ok results, s).
Proof. intros Hu. destruct n; simpl; rewrite Hu; reflexivity. Qed.

Lemma paginate_loop_serves w u pages w' :
  serves token w u pages w' ->
  forall n results tr, (length pages <= n)%nat ->
    exists tr',
      paginate_loop n u token results (mkState w tr)
        = (Ok (results ++ concat pages), mkState w' (tr ++ tr'))
      /\ length tr' = length pages.
Proof.
  induction 1 as [w u Hu | w u items next w' rest w'' Hu Hfetch Hrest IH];
    intros n results tr Hn.
  - exists []. rewrite (paginate_loop_done _ _ _ _ Hu). simpl.
    rewrite !app_nil_r. split; reflexivity.
  - destruct n as [|n]; [simpl in Hn; lia|].
    rewrite (paginate_loop_step _ _ _ _ Hu). simpl world. rewrite Hfetch. simpl trace.
    destruct (IH n (results ++ items) (tr ++ [EvGet u token])) as (tr' & Hrun & Hlen).
    { simpl in Hn. lia. }
    exists (EvGet u token :: tr'). rewrite Hrun. split.
    + simpl. rewrite <- !app_assoc. reflexivity.
    + simpl. rewrite Hlen. reflexivity.
Qed.

Lemma paginate_loop_breaks w u k e :
  breaks token w u k e ->
  forall n results tr, (k <= n)%nat ->
    fst (paginate_loop n u token results (mkState w tr)) = Raise e.
Proof.
  induction 1 as [w u e w' Hu Hfetch | w u items next w' k e Hu Hfetch Hrest IH];
    intros n results tr Hn.
  - destruct n as [|n]; [lia|].
    rewrite (paginate_loop_step _ _ _ _ Hu). simpl world. rewrite Hfetch. reflexivity.
  - destruct n as [|n]; [lia|].
    rewrite (paginate_loop_step _ _ _ _ Hu). simpl world. rewrite Hfetch.
    apply IH. lia.
Qed.

Lemma paginate_loop_returns n : forall u results (s : state W) out s',
  paginate_loop n u token results s = (Ok out, s') ->
  exists pages, serves token (world s) u pages (world s')
                /\ out = results ++ concat pages.
Proof.
  induction n as [|n IH]; intros u results s out s' Hrun.
  - simpl in Hrun. destruct (url_truthy u) eqn:Hu; simpl in Hrun; [discriminate|].
    injection Hrun as <- <-. exists []. split; [constructor; exact Hu|].
    simpl. symmetry. apply app_nil_r.
  - destruct (url_truthy u) eqn:Hu.
    + rewrite (paginate_loop_step _ _ _ _ Hu) in Hrun.
      destruct (fetch token (world s) u) as [[e|[items next]] w'] eqn:Hfetch;
        [discriminate|].
      destruct (IH _ _ _ _ _ Hrun) as (pages & Hserves & ->).
      exists (items :: pages). split.
      * econstructor; eauto.
      * simpl. rewrite <- app_assoc. reflexivity.
    + rewrite (paginate_loop_done _ _ _ _ Hu) in Hrun. injection Hrun as <- <-.
      exists []. split; [constructor; exact Hu|].
      simpl. symmetry. apply app_nil_r.
Qed.

(** C8. [paginate] follows the ["next"] cursor until it is falsy (absent,
    null or empty): when the registry serves a chain of pages that ends
    with an exhausted cursor, [paginate], given room for that many pages,
    returns the concatenation of every page's results in page order after
    one request per page; when a request of the chain fails, [paginate]
    raises and returns nothing; and whatever [paginate] returns is the
    concatenation of such a complete chain, never a part of one. *)
Theorem paginate_all_pages :
  (forall w u pages w', serves token w u pages w' ->
     forall fuel tr, (length pages <= fuel)%nat ->
       exists tr',
         paginate fuel u token (mkState w tr) = (Ok (concat pages), mkState w' (tr ++ tr'))
         /\ length tr' = length pages)
  /\ (forall w u k e, breaks token w u k e ->
        forall fuel tr, (k <= fuel)%nat ->
          fst (paginate fuel u token (mkState w tr)) = Raise e)
  /\ (forall fuel u (s : state W) out s',
        paginate fuel u token s = (Ok out, s') ->
        exists pages, serves token (world s) u pages (world s') /\ out = concat pages).
Proof.
  unfold paginate. split; [|split].
  - intros w u pages w' Hserves fuel tr Hfuel.
    exact (paginate_loop_serves w u pages w' Hserves fuel [] tr Hfuel).
  - intros w u k e Hbreaks fuel tr Hfuel.
    exact (paginate_loop_breaks w u k e Hbreaks fuel [] tr Hfuel).
  - intros fuel u s out s' Hrun.
    exact (paginate_loop_returns fuel u [] s out s' Hrun).
Qed.

End Pagination.

(* ===================================================================== *)
(** ** What every step of a run respects *)
(* ===================================================================== *)

(** A relation [R] between the state before and after, and a class [E] of
    exceptions, are carried through the whole script once the primitive
    steps respect them. *)

Create HintDb behave.

Section Behaviour.
Context {W : Type} `{HW : Host W}.
Variable R : state W -> state W -> Prop.
Variable E : exn -> Prop.
Hypothesis R_refl : forall s, R s s.
Hypothesis R_trans : forall s1 s2 s3, R s1 s2 -> R s2 s3 -> R s1 s3.
Hypothesis R_get : forall s u t w', R s (mkState w' (trace s ++ [EvGet u t])).
Hypothesis E_Exception : forall e, is_Exception e = true -> E e.

Lemma respects_ret {A} (a : A) : respects R E (ret a).
Proof. intros s. split; [apply R_refl | discriminate]. Qed.

Lemma respects_raise {A} e :
  is_Exception e = true -> respects R E (A := A) (raise e).
Proof.
  intros He s. split; [apply R_refl|]. intros e' [= <-]. apply E_Exception, He.
Qed.

Lemma respects_out_of_fuel {A} : respects R E (A := A) out_of_fuel.
Proof. intros s. split; [apply R_refl | discriminate]. Qed.

Lemma respects_bind {A B} (m : M W A) (k : A -> M W B) :
  respects R E m -> (forall a, respects R E (k a)) -> respects R E (bind m k).
Proof.
  intros Hm Hk s. unfold bind. destruct (Hm s) as [HR HE].
  destruct (m s) as [[a|e|] s'] eqn:Hms; simpl in *.
  - destruct (Hk a s') as [HR' HE']. split; [eapply R_trans; eauto | exact HE'].
  - split; [exact HR|]. intros e' [= <-]. apply HE. reflexivity.
  - split; [exact HR | discriminate].
Qed.

Lemma respects_call ev f :
  (forall s w', R s (mkState w' (trace s ++ [ev]))) -> respects R E (call ev f).
Proof.
  intros Hev s. unfold call. destruct (f (world s)) as [[fl|resp] w']; simpl.
  - split; [apply Hev|]. intros e [= <-]. apply E_Exception. reflexivity.
  - split; [apply Hev | discriminate].
Qed.

Lemma respects_raise_for_status resp : respects R E (raise_for_status resp).
Proof.
  unfold raise_for_status. destruct (_ && _);
    [apply respects_raise; reflexivity | apply respects_ret].
Qed.

Lemma respects_resp_json resp : respects R E (resp_json resp).
Proof.
  unfold resp_json. destruct (body resp);
    [apply respects_ret | apply respects_raise; reflexivity].
Qed.

Lemma respects_py_get d k dflt : respects R E (py_get d k dflt).
Proof.
  destruct d; simpl; try (apply respects_raise; reflexivity). apply respects_ret.
Qed.

Lemma respects_py_getitem d k : respects R E (py_getitem d k).
Proof.
  destruct d; simpl; try (apply respects_raise; reflexivity).
  destruct (items_lookup items k);
    [apply respects_ret | apply respects_raise; reflexivity].
Qed.

Lemma respects_py_iter v : respects R E (py_iter v).
Proof.
  unfold py_iter. destruct (iter_items v);
    [apply respects_ret | apply respects_raise; reflexivity].
Qed.

Lemma respects_evaluate_tag cfg tag rank : respects R E (evaluate_tag cfg tag rank).
Proof.
  intros s. rewrite evaluate_tag_eq. simpl. split; [apply R_refl|].
  intros e He. apply E_Exception. exact (verdict_Exception cfg _ _ _ _ He).
Qed.

#[local] Hint Resolve respects_ret respects_out_of_fuel respects_raise_for_status
  respects_resp_json respects_py_get respects_py_getitem respects_py_iter
  respects_evaluate_tag : behave.

Ltac behave :=
  repeat first [ apply respects_bind; [| intros ?] | solve [auto with behave] ].

Lemma respects_paginate_loop token n : forall u results,
  respects R E (paginate_loop n u token results).
Proof.
  induction n as [|n IH]; intros u results; simpl;
    destruct (negb (url_truthy u)); auto with behave.
  apply respects_bind; [apply respects_call; intros; apply R_get|].
  intros resp. behave.
Qed.

Lemma respects_keyed tags : respects R E (keyed tags).
Proof. induction tags as [|t rest IH]; simpl; behave. Qed.

Lemma respects_names_of repos : respects R E (names_of repos).
Proof. induction repos as [|r rest IH]; simpl; behave. Qed.

Lemma respects_get_tags cfg fuel token repo :
  respects R E (get_tags cfg fuel token repo).
Proof.
  unfold get_tags, paginate. apply respects_bind; [apply respects_paginate_loop|].
  intros tags. apply respects_bind; [apply respects_keyed|].
  intros ks. destruct (sorted_desc ks);
    [apply respects_ret | apply respects_raise; reflexivity].
Qed.

Lemma respects_get_repositories cfg fuel token :
  respects R E (get_repositories cfg fuel token).
Proof.
  unfold get_repositories, paginate.
  apply respects_bind; [apply respects_paginate_loop|].
  intros repos. apply respects_names_of.
Qed.

(** *** With the other requests and the log respected too *)

Hypothesis R_post : forall s u w', R s (mkState w' (trace s ++ [EvPost u])).
Hypothesis R_delete : forall s u t w', R s (mkState w' (trace s ++ [EvDelete u t])).
Hypothesis R_log : forall s lvl m w', R s (mkState w' (trace s ++ [EvLog lvl m])).

Lemma respects_log lvl m : respects R E (log lvl m).
Proof. intros s. split; [apply R_log | discriminate]. Qed.

#[local] Hint Resolve respects_log respects_get_tags respects_get_repositories : behave.

Lemma respects_get_token cfg : respects R E (get_token cfg).
Proof.
  unfold get_token. apply respects_bind; [apply respects_call; intros; apply R_post|].
  intros resp. behave.
Qed.

Lemma respects_delete_tag cfg token repo tag :
  respects R E (delete_tag cfg token repo tag).
Proof.
  unfold delete_tag. apply respects_bind; [apply respects_call; intros; apply R_delete|].
  intros resp. behave.
Qed.

Lemma respects_process_tag cfg token repo rank tag st :
  respects R E (process_tag cfg token repo rank tag st).
Proof.
  unfold process_tag. apply respects_bind; [auto with behave|]. intros name.
  apply respects_bind; [auto with behave|]. intros [[|] why].
  - destruct (DRY_RUN cfg); [behave|].
    apply respects_bind; [auto with behave|]. intros _.
    apply respects_bind; [apply respects_delete_tag|]. intros [|]; behave.
  - behave.
Qed.

Lemma respects_process_tags cfg token repo tags : forall rank st,
  respects R E (process_tags cfg token repo rank tags st).
Proof.
  induction tags as [|t rest IH]; intros rank st; simpl; [behave|].
  apply respects_bind; [apply respects_process_tag|]. intros st'. apply IH.
Qed.

Lemma respects_process_repo cfg fuel token repo :
  respects R E (process_repo cfg fuel token repo).
Proof.
  unfold process_repo. apply respects_bind; [auto with behave|]. intros _.
  apply respects_bind; [auto with behave|]. intros tags.
  apply respects_bind; [apply respects_process_tags|]. intros st. behave.
Qed.

Lemma respects_process_repos cfg fuel token repos : forall totals,
  respects R E (process_repos cfg fuel token repos totals).
Proof.
  induction repos as [|r rest IH]; intros totals; simpl; [behave|].
  apply respects_bind; [apply respects_process_repo|]. intros st. apply IH.
Qed.

Lemma respects_run_cleanup cfg fuel : respects R E (run_cleanup cfg fuel).
Proof.
  unfold run_cleanup. apply respects_bind; [auto with behave|]. intros _.
  apply respects_bind; [apply respects_get_token|]. intros token.
  apply respects_bind.
  { destruct (REPOS_TO_CLEAN cfg); auto with behave. }
  intros repos. apply respects_bind; [auto with behave|]. intros _.
  apply respects_bind; [apply respects_process_repos|]. intros totals.
  apply respects_bind; [auto with behave|]. intros _.
  apply respects_bind.
  { destruct (negb _); auto with behave. }
  intros _. destruct (DRY_RUN cfg); auto with behave.
Qed.

End Behaviour.

(* ===================================================================== *)
(** ** One repository *)
(* ===================================================================== *)

Section Processor.
Context {W : Type} `{HW : Host W}.
Variable cfg : Config.
Variable fuel : nat.
Variables token repo : json.

(** The four ways one iteration can go. *)
Lemma process_tag_raises tag rank st (s : state W) e :
  verdict cfg (world s) tag rank = Raise e ->
  process_tag cfg token repo rank tag st s = (Raise e, s).
Proof.
  intros Hv. unfold process_tag, bind, py_get.
  destruct tag; try (simpl in Hv; injection Hv as <-; reflexivity).
  simpl. rewrite evaluate_tag_eq. simpl. rewrite Hv. reflexivity.
Qed.

Lemma process_tag_keeps tag rank st (s : state W) why :
  verdict cfg (world s) tag rank = Ok (false, why) ->
  process_tag cfg token repo rank tag st s =
    (Ok (incr_kept st), logged s [EvLog DEBUG (MsgKeeping repo (tag_name tag) why)]).
Proof.
  intros Hv. destruct (verdict_needs_dict cfg _ _ _ _ Hv) as [items ->].
  unfold process_tag, bind, py_get. simpl. rewrite evaluate_tag_eq. simpl.
  rewrite Hv. reflexivity.
Qed.

Lemma process_tag_dry tag rank st (s : state W) why :
  DRY_RUN cfg = true ->
  verdict cfg (world s) tag rank = Ok (true, why) ->
  process_tag cfg token repo rank tag st s =
    (Ok (incr_deleted st), logged s [EvLog INFO (MsgWouldDelete repo (tag_name tag) why)]).
Proof.
  intros Hdry Hv. destruct (verdict_needs_dict cfg _ _ _ _ Hv) as [items ->].
  unfold process_tag, bind, py_get. simpl. rewrite evaluate_tag_eq. simpl.
  rewrite Hv, Hdry. reflexivity.
Qed.

Lemma process_tag_live tag rank st (s : state W) why resp w' :
  DRY_RUN cfg = false ->
  verdict cfg (world s) tag rank = Ok (true, why) ->
  requests_delete (tag_url cfg repo tag) token (world s) = (inr resp, w') ->
  process_tag cfg token repo rank tag st s =
    if status_code resp =? 204 then
      (Ok (incr_deleted st),
       mkState w' (trace s ++ [EvLog INFO (MsgDeleting repo (tag_name tag) why);
                               EvDelete (tag_url cfg repo tag) token;
                               EvLog INFO (MsgDeleted repo (tag_name tag))]))
    else
      (Ok (incr_errors st),
       mkState w' (trace s ++ [EvLog INFO (MsgDeleting repo (tag_name tag) why);
                               EvDelete (tag_url cfg repo tag) token;
                               EvLog ERROR (MsgFailedToDelete repo (tag_name tag))])).
Proof.
  intros Hlive Hv Hreq. destruct (verdict_needs_dict cfg _ _ _ _ Hv) as [items ->].
  unfold process_tag, bind, py_get. simpl. rewrite evaluate_tag_eq. simpl.
  rewrite Hv, Hlive. unfold delete_tag, bind, call, log, emit, ret. simpl.
  unfold tag_url, tag_name, tag_field in Hreq. rewrite Hreq. simpl.
  destruct (status_code resp =? 204); simpl;
    rewrite <- !app_assoc; reflexivity.
Qed.

Lemma process_tag_live_unreachable tag rank st (s : state W) why f w' :
  DRY_RUN cfg = false ->
  verdict cfg (world s) tag rank = Ok (true, why) ->
  requests_delete (tag_url cfg repo tag) token (world s) = (inl f, w') ->
  process_tag cfg token repo rank tag st s =
    (Raise (RequestError f),
     mkState w' (trace s ++ [EvLog INFO (MsgDeleting repo (tag_name tag) why);
                             EvDelete (tag_url cfg repo tag) token])).
Proof.
  intros Hlive Hv Hreq. destruct (verdict_needs_dict cfg _ _ _ _ Hv) as [items ->].
  unfold process_tag, bind, py_get. simpl. rewrite evaluate_tag_eq. simpl.
  rewrite Hv, Hlive. unfold delete_tag, bind, call, log, emit, ret. simpl.
  unfold tag_url, tag_name, tag_field in Hreq. rewrite Hreq. simpl.
  rewrite <- !app_assoc; reflexivity.
Qed.

(** *** Nothing but [delete_tag] asks for a deletion *)

Lemma delete_calls_app tr1 tr2 :
  delete_calls (tr1 ++ tr2) = delete_calls tr1 ++ delete_calls tr2.
Proof. unfold delete_calls. apply omap_app. Qed.

Lemma no_delete_get_tags : no_delete (get_tags cfg fuel token repo).
Proof.
  intros s.
  refine (proj1 (respects_get_tags
    (fun s1 s2 => delete_calls (trace s2) = delete_calls (trace s1)) (fun _ => True)
    _ _ _ _ cfg fuel token repo s)).
  - reflexivity.
  - intros s1 s2 s3 H12 H23. rewrite H23. exact H12.
  - intros s1 u t w'. simpl. rewrite delete_calls_app. apply app_nil_r.
  - intros e _. exact I.
Qed.

(** *** The loop over the ranked tags *)

Lemma Ok_stats_eq c c' d d' k k' e e' :
  c = c' -> d = d' -> k = k' -> e = e' ->
  Ok (mkStats c d k e) = Ok (mkStats c' d' k' e').
Proof. intros -> -> -> ->. reflexivity. Qed.

Ltac same_stats := simpl; apply Ok_stats_eq; simpl; lia.

Lemma process_tags_cons tag rest rank st (s : state W) :
  process_tags cfg token repo rank (tag :: rest) st s =
    match process_tag cfg token repo rank tag st s with
    | (Ok st', s') => process_tags cfg token repo (rank + 1) rest st' s'
    | (Raise e, s') => (Raise e, s')
    | (OutOfFuel, s') => (OutOfFuel, s')
    end.
Proof. reflexivity. Qed.

Lemma eligible_clock w w' tags : forall rank,
  datetime_now w' = datetime_now w ->
  eligible cfg w' rank tags = eligible cfg w rank tags.
Proof.
  induction tags as [|t rest IH]; intros rank Hc; simpl; [reflexivity|].
  unfold deletes. rewrite (verdict_clock cfg w w' t rank Hc), (IH (rank + 1) Hc).
  reflexivity.
Qed.

Lemma all_evaluate_clock w w' tags : forall rank,
  datetime_now w' = datetime_now w ->
  all_evaluate cfg w' rank tags = all_evaluate cfg w rank tags.
Proof.
  induction tags as [|t rest IH]; intros rank Hc; simpl; [reflexivity|].
  unfold evaluates. rewrite (verdict_clock cfg w w' t rank Hc), (IH (rank + 1) Hc).
  reflexivity.
Qed.

Lemma eligible_length w tags : forall rank,
  (length (eligible cfg w rank tags) <= length tags)%nat.
Proof.
  induction tags as [|t rest IH]; intros rank; simpl; [lia|].
  specialize (IH (rank + 1)). destruct (deletes cfg w t rank); simpl; lia.
Qed.

(** Dry run: the world is left alone, only log lines are added, and the
    loop returns exactly when every tag has a verdict. *)
Lemma process_tags_dry tags : forall rank st (s : state W),
  DRY_RUN cfg = true ->
  let r := process_tags cfg token repo rank tags st s in
  world (snd r) = world s
  /\ delete_calls (trace (snd r)) = delete_calls (trace s)
  /\ (all_evaluate cfg (world s) rank tags = true ->
        fst r = Ok {| checked := checked st;
                      deleted := deleted st
                                 + Z.of_nat (length (eligible cfg (world s) rank tags));
                      kept := kept st + (Z.of_nat (length tags)
                                 - Z.of_nat (length (eligible cfg (world s) rank tags)));
                      errors := errors st |})
  /\ (forall st', fst r = Ok st' -> all_evaluate cfg (world s) rank tags = true).
Proof.
  induction tags as [|t rest IH]; intros rank st s Hdry; cbn zeta.
  - simpl. repeat split; auto. intros _. destruct st. same_stats.
  - rewrite process_tags_cons. simpl all_evaluate. simpl eligible.
    unfold evaluates, deletes.
    destruct (verdict cfg (world s) t rank) as [[[|] why]|e|] eqn:Hv.
    + rewrite (process_tag_dry t rank st s why Hdry Hv).
      destruct (IH (rank + 1) (incr_deleted st)
                  (logged s [EvLog INFO (MsgWouldDelete repo (tag_name t) why)]) Hdry)
        as (Hw & Hd & Hret & Hev).
      cbn zeta in *. simpl world in *. simpl trace in *.
      split; [exact Hw|]. split.
      { rewrite Hd, delete_calls_app. simpl. apply app_nil_r. }
      split.
      { intros Hall. rewrite (Hret Hall). destruct st. same_stats. }
      { intros st' Hst. exact (Hev st' Hst). }
    + rewrite (process_tag_keeps t rank st s why Hv).
      destruct (IH (rank + 1) (incr_kept st)
                  (logged s [EvLog DEBUG (MsgKeeping repo (tag_name t) why)]) Hdry)
        as (Hw & Hd & Hret & Hev).
      cbn zeta in *. simpl world in *. simpl trace in *.
      split; [exact Hw|]. split.
      { rewrite Hd, delete_calls_app. simpl. apply app_nil_r. }
      split.
      { intros Hall. rewrite (Hret Hall). destruct st. same_stats. }
      { intros st' Hst. exact (Hev st' Hst). }
    + rewrite (process_tag_raises t rank st s e Hv). simpl.
      repeat split; auto; discriminate.
    + exfalso. exact (verdict_in_fuel cfg _ _ _ Hv).
Qed.

(** Live run in which each delete request gets an answer: one request per
    tag found eligible in its turn, in rank order, and the counters follow
    the answers. *)
Lemma process_tags_live tags : forall rank st (s : state W),
  DRY_RUN cfg = false ->
  all_evaluate_in_turn cfg token repo (world s) rank tags = true ->
  let urls := map (tag_url cfg repo) (eligible_in_turn cfg token repo (world s) rank tags) in
  let results := delete_results (world s) token urls in
  length results = length urls ->
  exists s',
    process_tags cfg token repo rank tags st s
      = (Ok (tally st (length tags) (length urls) results), s')
    /\ delete_calls (trace s') = delete_calls (trace s) ++ urls.
Proof.
  induction tags as [|t rest IH]; intros rank st s Hlive Hall; cbn zeta.
  - simpl. intros _. exists s. split; [|symmetry; apply app_nil_r].
    unfold ret, tally, count_true, count_false. destruct st. f_equal. same_stats.
  - rewrite process_tags_cons. cbn [all_evaluate_in_turn] in Hall.
    cbn [eligible_in_turn]. unfold evaluates in Hall. unfold deletes in Hall |- *.
    destruct (verdict cfg (world s) t rank) as [[[|] why]|e|] eqn:Hv;
      try discriminate.
    + simpl map. simpl delete_results.
      destruct (requests_delete (tag_url cfg repo t) token (world s))
        as [[f|resp] w'] eqn:Hreq; [discriminate|].
      simpl length. intros Hlen. injection Hlen as Hlen.
      rewrite (process_tag_live t rank st s why resp w' Hlive Hv Hreq).
      simpl in Hall. simpl snd in Hlen |- *.
      destruct (status_code resp =? 204).
      * destruct (IH (rank + 1) (incr_deleted st)
                    (mkState w' (trace s ++
                       [EvLog INFO (MsgDeleting repo (tag_name t) why);
                        EvDelete (tag_url cfg repo t) token;
                        EvLog INFO (MsgDeleted repo (tag_name t))]))
                    Hlive Hall Hlen) as (s' & Hrun & Hcalls).
        exists s'. split.
        { rewrite Hrun. f_equal. unfold tally, count_true, count_false.
          destruct st. simpl. rewrite !length_map. same_stats. }
        { rewrite Hcalls. simpl trace. rewrite delete_calls_app. simpl.
          rewrite <- app_assoc. reflexivity. }
      * destruct (IH (rank + 1) (incr_errors st)
                    (mkState w' (trace s ++
                       [EvLog INFO (MsgDeleting repo (tag_name t) why);
                        EvDelete (tag_url cfg repo t) token;
                        EvLog ERROR (MsgFailedToDelete repo (tag_name t))]))
                    Hlive Hall Hlen) as (s' & Hrun & Hcalls).
        exists s'. split.
        { rewrite Hrun. f_equal. unfold tally, count_true, count_false.
          destruct st. simpl. rewrite !length_map. same_stats. }
        { rewrite Hcalls. simpl trace. rewrite delete_calls_app. simpl.
          rewrite <- app_assoc. reflexivity. }
    + intros Hlen. rewrite (process_tag_keeps t rank st s why Hv).
      simpl in Hall.
      destruct (IH (rank + 1) (incr_kept st)
                  (logged s [EvLog DEBUG (MsgKeeping repo (tag_name t) why)])
                  Hlive Hall Hlen) as (s' & Hrun & Hcalls).
      exists s'. split.
      { rewrite Hrun. f_equal. unfold tally. destruct st. simpl.
        rewrite !length_map. same_stats. }
      { rewrite Hcalls. simpl trace. rewrite delete_calls_app. simpl.
        rewrite app_nil_r. reflexivity. }
Qed.

(** With a clock that the delete requests do not move, the tags found
    eligible in their turn are the tags eligible at the start. *)
Lemma eligible_in_turn_still tags : forall w rank,
  (forall u tok w0, datetime_now (snd (requests_delete u tok w0)) = datetime_now w0) ->
  eligible_in_turn cfg token repo w rank tags = eligible cfg w rank tags.
Proof.
  induction tags as [|t rest IH]; intros w rank Hclock; [reflexivity|].
  simpl. destruct (deletes cfg w t rank); [|apply IH; exact Hclock].
  rewrite (IH _ (rank + 1) Hclock).
  rewrite (eligible_clock w _ rest (rank + 1) (Hclock _ _ _)). reflexivity.
Qed.

Lemma process_tags_app done : forall rest rank st (s : state W),
  process_tags cfg token repo rank (done ++ rest) st s =
    match process_tags cfg token repo rank done st s with
    | (Ok st1, s1) =>
        process_tags cfg token repo (rank + Z.of_nat (length done)) rest st1 s1
    | (Raise e, s1) => (Raise e, s1)
    | (OutOfFuel, s1) => (OutOfFuel, s1)
    end.
Proof.
  induction done as [|d done' IH]; intros rest rank st s.
  - simpl. rewrite Z.add_0_r. reflexivity.
  - rewrite <- app_comm_cons, !process_tags_cons.
    destruct (process_tag cfg token repo rank d st s) as [[st1|e|] s1]; try reflexivity.
    rewrite IH. replace (rank + 1 + Z.of_nat (length done'))
      with (rank + Z.of_nat (length (d :: done'))) by (simpl length; lia).
    reflexivity.
Qed.

(** One iteration moves exactly one of the three outcome counters. *)
Lemma process_tag_one_bucket tag rank st (s : state W) st' s' :
  process_tag cfg token repo rank tag st s = (Ok st', s') ->
  st' = incr_deleted st \/ st' = incr_kept st \/ st' = incr_errors st.
Proof.
  intros Hrun.
  destruct (verdict cfg (world s) tag rank) as [[[|] why]|e|] eqn:Hv.
  - destruct (DRY_RUN cfg) eqn:Hdry.
    + rewrite (process_tag_dry tag rank st s why Hdry Hv) in Hrun.
      injection Hrun as <- _. left. reflexivity.
    + destruct (requests_delete (tag_url cfg repo tag) token (world s))
        as [[f|resp] w'] eqn:Hreq.
      * rewrite (process_tag_live_unreachable tag rank st s why f w' Hdry Hv Hreq) in Hrun.
        discriminate.
      * rewrite (process_tag_live tag rank st s why resp w' Hdry Hv Hreq) in Hrun.
        destruct (status_code resp =? 204); injection Hrun as <- _; auto.
  - rewrite (process_tag_keeps tag rank st s why Hv) in Hrun.
    injection Hrun as <- _. auto.
  - rewrite (process_tag_raises tag rank st s e Hv) in Hrun. discriminate.
  - exfalso. exact (verdict_in_fuel cfg _ _ _ Hv).
Qed.

Lemma process_tags_buckets tags : forall rank st (s : state W) st' s',
  process_tags cfg token repo rank tags st s = (Ok st', s') ->
  checked st' = checked st
  /\ deleted st' + kept st' + errors st'
     = deleted st + kept st + errors st + Z.of_nat (length tags).
Proof.
  induction tags as [|t rest IH]; intros rank st s st' s' Hrun.
  - simpl in Hrun. injection Hrun as <- _. simpl. lia.
  - rewrite process_tags_cons in Hrun.
    destruct (process_tag cfg token repo rank t st s) as [[st1|e|] s1] eqn:Hstep;
      try discriminate.
    destruct (IH _ _ _ _ _ Hrun) as [Hc Hsum].
    destruct (process_tag_one_bucket _ _ _ _ _ _ Hstep) as [ -> | [ -> | -> ] ];
      simpl in *; lia.
Qed.

Lemma process_repo_unfold (s : state W) :
  process_repo cfg fuel token repo s =
    match get_tags cfg fuel token repo
            (logged s [EvLog INFO (MsgRepository (DOCKERHUB_NAMESPACE cfg) repo)]) with
    | (Ok tags, s1) =>
        match process_tags cfg token repo 0 tags
                {| checked := Z.of_nat (length tags);
                   deleted := 0; kept := 0; errors := 0 |} s1 with
        | (Ok st, s2) => (Ok st, logged s2 [EvLog INFO (MsgRepoStats st (DRY_RUN cfg))])
        | (Raise e, s2) => (Raise e, s2)
        | (OutOfFuel, s2) => (OutOfFuel, s2)
        end
    | (Raise e, s1) => (Raise e, s1)
    | (OutOfFuel, s1) => (OutOfFuel, s1)
    end.
Proof.
  unfold process_repo, bind, log, emit, logged. simpl.
  destruct (get_tags _ _ _ _ _) as [[tags|e|] s1]; reflexivity.
Qed.

(** C5. In dry-run mode [process_repo] records no delete request, however
    it ends; once [get_tags] has returned the ranked tags it returns
    whenever every tag can be evaluated, and the stats it returns have
    [deleted] equal to the number of tags that satisfy the delete
    predicate (the tags a live run would ask to delete), [kept] the rest,
    and no errors. *)
Theorem process_repo_dry_run (s : state W) :
  DRY_RUN cfg = true ->
  let r := process_repo cfg fuel token repo s in
  delete_calls (trace (snd r)) = delete_calls (trace s)
  /\ forall tags s1,
       get_tags cfg fuel token repo
         (logged s [EvLog INFO (MsgRepository (DOCKERHUB_NAMESPACE cfg) repo)])
         = (Ok tags, s1) ->
       let n := Z.of_nat (length (eligible cfg (world s1) 0 tags)) in
       (all_evaluate cfg (world s1) 0 tags = true -> exists st, fst r = Ok st)
       /\ (forall st, fst r = Ok st ->
             deleted st = n
             /\ checked st = Z.of_nat (length tags)
             /\ kept st = Z.of_nat (length tags) - n
             /\ errors st = 0).
Proof.
  intros Hdry r. subst r. rewrite process_repo_unfold.
  pose proof (no_delete_get_tags
    (logged s [EvLog INFO (MsgRepository (DOCKERHUB_NAMESPACE cfg) repo)])) as Hq.
  simpl trace in Hq. rewrite delete_calls_app, app_nil_r in Hq.
  destruct (get_tags _ _ _ _ _) as [[tags|e|] s1] eqn:Hget; simpl in Hq;
    try (split; [exact Hq | intros ? ? [=]]).
  destruct (process_tags_dry tags 0
              {| checked := Z.of_nat (length tags); deleted := 0; kept := 0; errors := 0 |}
              s1 Hdry) as (_ & Hd & Hret & Hev).
  cbn zeta in *.
  destruct (process_tags _ _ _ _ _ _ _) as [[st|e|] s2] eqn:Hrun; simpl in *.
  - split.
    { rewrite delete_calls_app, app_nil_r, Hd. exact Hq. }
    intros tags' s1' Heq. injection Heq as <- <-.
    split; [intros _; exists st; reflexivity|].
    intros st' Hst. injection Hst as <-.
    specialize (Hret (Hev st eq_refl)). injection Hret as ->. simpl. lia.
  - split; [rewrite Hd; exact Hq|].
    intros tags' s1' Heq. injection Heq as <- <-.
    split; [|intros st [=]].
    intros Hall. specialize (Hret Hall). discriminate.
  - split; [rewrite Hd; exact Hq|].
    intros tags' s1' Heq. injection Heq as <- <-.
    split; [|intros st [=]].
    intros Hall. specialize (Hret Hall). discriminate.
Qed.

(** C6, as the code has it.  In live mode, (a) an eligible tag whose
    delete request is answered gets exactly that one request, [deleted]
    moves only on a 204, any other status moves [errors] and nothing else,
    and the iteration returns; (b) a delete request that itself raises is
    not caught: the loop raises that exception right after the request, and
    the tags after it are not processed; (c) over a whole repository whose
    tags evaluate and whose delete requests are all answered,
    [process_repo] returns, its delete requests are the URLs of the tags
    found eligible in their turn, once each and in rank order, [deleted]
    counts the 204 answers and [errors] the others; (d) when a delete
    request of the repository raises, [process_repo] raises that exception
    in the state the request left: no stats, no summary line, and no
    request for the tags after it. *)
Theorem process_repo_live :
  DRY_RUN cfg = false ->
  (forall tag rank st (s : state W) why resp w',
      verdict cfg (world s) tag rank = Ok (true, why) ->
      requests_delete (tag_url cfg repo tag) token (world s) = (inr resp, w') ->
      let r := process_tag cfg token repo rank tag st s in
      fst r = Ok (if status_code resp =? 204 then incr_deleted st else incr_errors st)
      /\ delete_calls (trace (snd r)) = delete_calls (trace s) ++ [tag_url cfg repo tag])
  /\ (forall done tag rest rank st (s : state W) st1 s1 why f w',
        process_tags cfg token repo rank done st s = (Ok st1, s1) ->
        verdict cfg (world s1) tag (rank + Z.of_nat (length done)) = Ok (true, why) ->
        requests_delete (tag_url cfg repo tag) token (world s1) = (inl f, w') ->
        process_tags cfg token repo rank (done ++ tag :: rest) st s
        = (Raise (RequestError f),
           mkState w' (trace s1 ++ [EvLog INFO (MsgDeleting repo (tag_name tag) why);
                                    EvDelete (tag_url cfg repo tag) token])))
  /\ (forall (s : state W) tags s1,
        get_tags cfg fuel token repo
          (logged s [EvLog INFO (MsgRepository (DOCKERHUB_NAMESPACE cfg) repo)])
          = (Ok tags, s1) ->
        all_evaluate_in_turn cfg token repo (world s1) 0 tags = true ->
        let urls := map (tag_url cfg repo)
                      (eligible_in_turn cfg token repo (world s1) 0 tags) in
        let results := delete_results (world s1) token urls in
        length results = length urls ->
        exists st s',
          process_repo cfg fuel token repo s = (Ok st, s')
          /\ delete_calls (trace s') = delete_calls (trace s) ++ urls
          /\ checked st = Z.of_nat (length tags)
          /\ deleted st = count_true results
          /\ errors st = count_false results
          /\ kept st = Z.of_nat (length tags) - Z.of_nat (length urls))
  /\ (forall (s : state W) done tag rest s0 st1 s1 why f w',
        get_tags cfg fuel token repo
          (logged s [EvLog INFO (MsgRepository (DOCKERHUB_NAMESPACE cfg) repo)])
          = (Ok (done ++ tag :: rest), s0) ->
        process_tags cfg token repo 0 done
          {| checked := Z.of_nat (length (done ++ tag :: rest));
             deleted := 0; kept := 0; errors := 0 |} s0 = (Ok st1, s1) ->
        verdict cfg (world s1) tag (Z.of_nat (length done)) = Ok (true, why) ->
        requests_delete (tag_url cfg repo tag) token (world s1) = (inl f, w') ->
        process_repo cfg fuel token repo s
        = (Raise (RequestError f),
           mkState w' (trace s1 ++ [EvLog INFO (MsgDeleting repo (tag_name tag) why);
                                    EvDelete (tag_url cfg repo tag) token]))).
Proof.
  intros Hlive. split; [|split; [|split]].
  - intros tag rank st s why resp w' Hv Hreq r. subst r.
    rewrite (process_tag_live tag rank st s why resp w' Hlive Hv Hreq).
    destruct (status_code resp =? 204); simpl;
      (split; [reflexivity|]); rewrite delete_calls_app; reflexivity.
  - intros done tag rest rank st s st1 s1 why f w' Hdone Hv Hreq.
    rewrite process_tags_app, Hdone, process_tags_cons.
    rewrite (process_tag_live_unreachable tag _ st1 s1 why f w' Hlive Hv Hreq).
    reflexivity.
  - intros s tags s1 Hget Hall urls results Hlen.
    pose proof (no_delete_get_tags
      (logged s [EvLog INFO (MsgRepository (DOCKERHUB_NAMESPACE cfg) repo)])) as Hq.
    rewrite Hget in Hq. simpl in Hq. rewrite delete_calls_app, app_nil_r in Hq.
    destruct (process_tags_live tags 0
                {| checked := Z.of_nat (length tags); deleted := 0; kept := 0; errors := 0 |}
                s1 Hlive Hall Hlen) as (s2 & Hrun & Hcalls).
    rewrite process_repo_unfold, Hget, Hrun.
    eexists. eexists. split; [reflexivity|].
    split.
    { simpl. rewrite delete_calls_app, app_nil_r, Hcalls, Hq. reflexivity. }
    simpl. fold urls. fold results. repeat split; lia.
  - intros s done tag rest s0 st1 s1 why f w' Hget Hdone Hv Hreq.
    rewrite process_repo_unfold, Hget, process_tags_app, Hdone, process_tags_cons.
    change (0 + Z.of_nat (length done)) with (Z.of_nat (length done)).
    rewrite (process_tag_live_unreachable tag _ st1 s1 why f w' Hlive Hv Hreq).
    reflexivity.
Qed.

(** Whenever [process_repo] returns stats, every tag is in one bucket. *)
Lemma process_repo_partitioned (s : state W) st s' :
  process_repo cfg fuel token repo s = (Ok st, s') -> partitioned st.
Proof.
  rewrite process_repo_unfold.
  destruct (get_tags _ _ _ _ _) as [[tags|e|] s1]; try discriminate.
  destruct (process_tags _ _ _ _ _ _ _) as [[st1|e|] s2] eqn:Hrun; try discriminate.
  intros Heq. injection Heq as <- _.
  destruct (process_tags_buckets _ _ _ _ _ _ Hrun) as [Hc Hsum].
  unfold partitioned. simpl in *. lia.
Qed.

End Processor.

(* ===================================================================== *)
(** ** A whole run *)
(* ===================================================================== *)

Section Orchestrator.
Context {W : Type} `{HW : Host W}.
Variable cfg : Config.
Variable fuel : nat.

Lemma grows_refl (s : state W) : grows s s.
Proof. exists []. symmetry. apply app_nil_r. Qed.

Lemma grows_trans (s1 s2 s3 : state W) : grows s1 s2 -> grows s2 s3 -> grows s1 s3.
Proof.
  intros [t1 H1] [t2 H2]. exists (t1 ++ t2). rewrite H2, H1. symmetry. apply app_assoc.
Qed.

Lemma grows_emit (s : state W) ev w' : grows s (mkState w' (trace s ++ [ev])).
Proof. exists [ev]. reflexivity. Qed.

Lemma grows_In (s s' : state W) ev : grows s s' -> In ev (trace s) -> In ev (trace s').
Proof. intros [tr ->] Hin. apply in_or_app. left. exact Hin. Qed.

(** The trace grows along every part of a run, and what a run raises is
    an [Exception]. *)
Ltac grows_side :=
  first [ apply grows_refl | apply grows_trans | intros; apply grows_emit
        | intros e He; exact He ].

Lemma process_repo_grows token repo :
  respects grows (fun e => is_Exception e = true) (process_repo cfg fuel token repo).
Proof. apply respects_process_repo; grows_side. Qed.

Lemma process_repos_grows token repos totals :
  respects grows (fun e => is_Exception e = true)
    (process_repos cfg fuel token repos totals).
Proof. apply respects_process_repos; grows_side. Qed.

Lemma run_cleanup_grows :
  respects grows (fun e => is_Exception e = true) (run_cleanup cfg fuel).
Proof. apply respects_run_cleanup; grows_side. Qed.

Lemma get_tags_grows token repo :
  respects grows (fun e => is_Exception e = true) (get_tags cfg fuel token repo).
Proof. apply respects_get_tags; grows_side. Qed.

Lemma process_tags_grows token repo rank tags st :
  respects grows (fun e => is_Exception e = true)
    (process_tags cfg token repo rank tags st).
Proof. apply respects_process_tags; grows_side. Qed.

Lemma process_repo_attempted token repo (s : state W) :
  attempted cfg (trace (snd (process_repo cfg fuel token repo s))) repo.
Proof.
  assert (Hg : grows (logged s [EvLog INFO (MsgRepository (DOCKERHUB_NAMESPACE cfg) repo)])
                 (snd (process_repo cfg fuel token repo s))).
  { rewrite process_repo_unfold.
    destruct (get_tags_grows token repo
                (logged s [EvLog INFO (MsgRepository (DOCKERHUB_NAMESPACE cfg) repo)]))
      as [Hg1 _].
    destruct (get_tags _ _ _ _ _) as [[tags|e|] s1]; simpl in *; try exact Hg1.
    destruct (process_tags_grows token repo 0 tags
                {| checked := Z.of_nat (length tags); deleted := 0; kept := 0; errors := 0 |}
                s1) as [Hg2 _].
    destruct (process_tags _ _ _ _ _ _ _) as [[st|e|] s2]; simpl in *.
    - eapply grows_trans; [exact Hg1|]. eapply grows_trans; [exact Hg2|].
      apply grows_emit.
    - eapply grows_trans; eauto.
    - eapply grows_trans; eauto. }
  unfold attempted. eapply grows_In; [exact Hg|].
  simpl. apply in_or_app. right. left. reflexivity.
Qed.

Lemma process_repos_cons token repo rest totals (s : state W) :
  process_repos cfg fuel token (repo :: rest) totals s =
    match process_repo cfg fuel token repo s with
    | (Ok st, s') => process_repos cfg fuel token rest (add_stats totals st) s'
    | (Raise e, s') => (Raise e, s')
    | (OutOfFuel, s') => (OutOfFuel, s')
    end.
Proof. reflexivity. Qed.

Lemma add_stats_partitioned a b :
  partitioned a -> partitioned b -> partitioned (add_stats a b).
Proof. unfold partitioned, add_stats. simpl. lia. Qed.

Lemma process_repos_partitioned token repos : forall totals (s : state W) totals' s',
  partitioned totals ->
  process_repos cfg fuel token repos totals s = (Ok totals', s') ->
  partitioned totals'.
Proof.
  induction repos as [|r rest IH]; intros totals s totals' s' Hp Hrun.
  - simpl in Hrun. injection Hrun as <- _. exact Hp.
  - rewrite process_repos_cons in Hrun.
    destruct (process_repo cfg fuel token r s) as [[st|e|] s1] eqn:Hrepo;
      try discriminate.
    eapply IH; [|exact Hrun].
    apply add_stats_partitioned; [exact Hp|].
    exact (process_repo_partitioned cfg fuel token r s st s1 Hrepo).
Qed.

(** C9. The stats [process_repo] returns always satisfy
    [checked = deleted + kept + errors]; the component-wise sum of two such
    records satisfies it again, and so do the totals that the loop of
    [run_cleanup] accumulates from zero over any list of repositories. *)
Theorem stats_partitioned :
  (forall token repo (s : state W) st s',
      process_repo cfg fuel token repo s = (Ok st, s') -> partitioned st)
  /\ (forall totals st,
        partitioned totals -> partitioned st -> partitioned (add_stats totals st))
  /\ (forall token repos (s : state W) totals s',
        process_repos cfg fuel token repos zero_stats s = (Ok totals, s') ->
        partitioned totals).
Proof.
  split; [|split].
  - intros token repo s st s' Hrun.
    exact (process_repo_partitioned cfg fuel token repo s st s' Hrun).
  - exact add_stats_partitioned.
  - intros token repos s totals s' Hrun.
    eapply process_repos_partitioned; [|exact Hrun]. reflexivity.
Qed.

(** C3, as the code has it.  (a) When the loop over the repositories
    returns, every repository of the list was attempted.  (b) When
    [process_repo] raises for one repository, the loop raises the same
    exception in the state that repository left: the repositories after it
    are not attempted.  (c) With no configured filter and an empty
    namespace listing, [run_cleanup] returns and its summary reports
    all-zero totals. *)
Theorem process_repos_until_first_failure :
  (forall token repos totals (s : state W) t s',
      process_repos cfg fuel token repos totals s = (Ok t, s') ->
      forall repo, In repo repos -> attempted cfg (trace s') repo)
  /\ (forall token done repo rest totals (s : state W) t1 s1 e s2,
        process_repos cfg fuel token done totals s = (Ok t1, s1) ->
        process_repo cfg fuel token repo s1 = (Raise e, s2) ->
        process_repos cfg fuel token (done ++ repo :: rest) totals s = (Raise e, s2))
  /\ (forall (s : state W) token s1 s2,
        REPOS_TO_CLEAN cfg = [] ->
        get_token cfg (logged s [EvLog INFO (MsgBanner cfg)]) = (Ok token, s1) ->
        get_repositories cfg fuel token s1 = (Ok [], s2) ->
        run_cleanup cfg fuel s =
          (Ok tt,
           logged s2 ([EvLog INFO (MsgProcessing 0);
                       EvLog INFO (MsgSummary zero_stats (DRY_RUN cfg))]
                      ++ if DRY_RUN cfg then [EvLog INFO MsgDryRunComplete] else []))).
Proof.
  split; [|split].
  - intros token repos. induction repos as [|r rest IH];
      intros totals s t s' Hrun repo Hin; [destruct Hin|].
    rewrite process_repos_cons in Hrun.
    pose proof (process_repo_attempted token r s) as Hatt.
    destruct (process_repo cfg fuel token r s) as [[st|e|] s1] eqn:Hrepo;
      try discriminate.
    destruct Hin as [<-|Hin].
    + destruct (process_repos_grows token rest (add_stats totals st) s1) as [Hg _].
      rewrite Hrun in Hg. simpl in *. unfold attempted in *.
      eapply grows_In; [exact Hg | exact Hatt].
    + exact (IH _ _ _ _ Hrun repo Hin).
  - intros token done. induction done as [|d done' IH];
      intros repo rest totals s t1 s1 e s2 Hdone Hfail.
    + simpl in Hdone. injection Hdone as <- <-.
      rewrite app_nil_l, process_repos_cons, Hfail. reflexivity.
    + rewrite process_repos_cons in Hdone.
      rewrite <- app_comm_cons, process_repos_cons.
      destruct (process_repo cfg fuel token d s) as [[st|e'|] s'];
        try discriminate.
      exact (IH _ _ _ _ _ _ _ _ Hdone Hfail).
  - intros s token s1 s2 Hnone Hlogin Hlist.
    unfold run_cleanup, bind, log, emit, logged in *. simpl.
    rewrite Hlogin, Hnone, Hlist. simpl.
    destruct (DRY_RUN cfg); simpl; rewrite <- !app_assoc; reflexivity.
Qed.

(** *** The entry point *)

(** [safe_run_cleanup] turns what [run_cleanup] raises into two log lines. *)
Lemma safe_run_cleanup_catches (s : state W) e s' :
  run_cleanup cfg fuel s = (Raise e, s') ->
  safe_run_cleanup cfg fuel s =
    (Ok tt, logged s' [EvLog ERROR (MsgRunFailed e); EvLog INFO MsgWillRetry]).
Proof.
  intros Hrun. unfold safe_run_cleanup, try_except_Exception.
  destruct (run_cleanup_grows s) as [_ HE]. rewrite Hrun in *.
  rewrite (HE e eq_refl). unfold bind, log, emit, logged. simpl.
  rewrite <- app_assoc. reflexivity.
Qed.

Lemma safe_run_cleanup_never_raises (s : state W) e :
  fst (safe_run_cleanup cfg fuel s) <> Raise e.
Proof.
  destruct (run_cleanup cfg fuel s) as [[[]|e'|] s'] eqn:Hrun.
  - unfold safe_run_cleanup, try_except_Exception. rewrite Hrun. discriminate.
  - rewrite (safe_run_cleanup_catches s e' s' Hrun). discriminate.
  - unfold safe_run_cleanup, try_except_Exception. rewrite Hrun. discriminate.
Qed.

Lemma safe_run_cleanup_returns (s : state W) s' :
  run_cleanup cfg fuel s = (Ok tt, s') -> safe_run_cleanup cfg fuel s = (Ok tt, s').
Proof.
  intros Hrun. unfold safe_run_cleanup, try_except_Exception. rewrite Hrun. reflexivity.
Qed.

Lemma safe_run_cleanup_unfinished (s : state W) s' :
  run_cleanup cfg fuel s = (OutOfFuel, s') -> safe_run_cleanup cfg fuel s = (OutOfFuel, s').
Proof.
  intros Hrun. unfold safe_run_cleanup, try_except_Exception. rewrite Hrun. reflexivity.
Qed.

Lemma get_token_grows :
  respects grows (fun e => is_Exception e = true) (get_token (W := W) cfg).
Proof. apply respects_get_token; grows_side. Qed.

Lemma get_repositories_grows token :
  respects grows (fun e => is_Exception e = true) (get_repositories cfg fuel token).
Proof. apply respects_get_repositories; grows_side. Qed.

Lemma log_grows lvl msg :
  respects grows (fun e : exn => is_Exception e = true) (log (W := W) lvl msg).
Proof. intros s. split; [apply grows_emit | discriminate]. Qed.

Lemma ret_grows {A} (a : A) :
  respects grows (fun e : exn => is_Exception e = true) (ret (W := W) a).
Proof. intros s. split; [apply grows_refl | discriminate]. Qed.

Lemma bind_grows {A B} (m : M W A) (k : A -> M W B) :
  respects grows (fun e => is_Exception e = true) m ->
  (forall a, respects grows (fun e => is_Exception e = true) (k a)) ->
  respects grows (fun e => is_Exception e = true) (bind m k).
Proof. intros Hm Hk. apply respects_bind; [exact grows_trans | exact Hm | exact Hk]. Qed.

(** Every run opens with its banner, and keeps what was logged before. *)
Lemma run_cleanup_opens (s : state W) :
  exists tr, trace (snd (run_cleanup cfg fuel s))
             = trace s ++ EvLog INFO (MsgBanner cfg) :: tr.
Proof.
  unfold run_cleanup.
  match goal with
  | |- context [bind (log INFO (MsgBanner cfg)) ?k] => set (rest := k)
  end.
  assert (Hrest : respects grows (fun e => is_Exception e = true) (rest tt)).
  { subst rest. cbv beta.
    apply bind_grows; [apply get_token_grows|]. intros token.
    apply bind_grows.
    { destruct (REPOS_TO_CLEAN cfg); [apply get_repositories_grows | apply ret_grows]. }
    intros repos. apply bind_grows; [apply log_grows|]. intros _.
    apply bind_grows; [apply process_repos_grows|]. intros totals.
    apply bind_grows; [apply log_grows|]. intros _.
    apply bind_grows.
    { destruct (negb _); [apply log_grows | apply ret_grows]. }
    intros _. destruct (DRY_RUN cfg); [apply log_grows | apply ret_grows]. }
  unfold bind at 1. unfold log at 1, emit. cbv beta iota.
  destruct (Hrest (mkState (world s) (trace s ++ [EvLog INFO (MsgBanner cfg)])))
    as [[tr Htr] _].
  exists tr. rewrite Htr. simpl. rewrite <- app_assoc. reflexivity.
Qed.

Lemma safe_run_cleanup_opens (s : state W) :
  exists tr, trace (snd (safe_run_cleanup cfg fuel s))
             = trace s ++ EvLog INFO (MsgBanner cfg) :: tr.
Proof.
  destruct (run_cleanup_opens s) as [tr Htr].
  destruct (run_cleanup cfg fuel s) as [[[]|e|] s'] eqn:Hrun; simpl in Htr.
  - rewrite (safe_run_cleanup_returns s s' Hrun). exists tr. exact Htr.
  - rewrite (safe_run_cleanup_catches s e s' Hrun).
    exists (tr ++ [EvLog ERROR (MsgRunFailed e); EvLog INFO MsgWillRetry]).
    simpl. rewrite Htr, <- app_assoc. reflexivity.
  - rewrite (safe_run_cleanup_unfinished s s' Hrun). exists tr. exact Htr.
Qed.

(** The scheduler gets through all its ticks, one run after the other, and
    stops short only in a run that is still paginating at the bound. *)
Lemma scheduler_start_exact ticks : forall (s : state W),
  (runs_complete cfg fuel ticks s = true ->
     scheduler_start (safe_run_cleanup cfg fuel) ticks s
     = (Raise KeyboardInterrupt, after_runs cfg fuel ticks s))
  /\ (runs_complete cfg fuel ticks s = false ->
        fst (scheduler_start (safe_run_cleanup cfg fuel) ticks s) = OutOfFuel).
Proof.
  induction ticks as [|n IH]; intros s; simpl.
  - split; [reflexivity | discriminate].
  - unfold bind. pose proof (safe_run_cleanup_never_raises s) as Hnr.
    destruct (safe_run_cleanup cfg fuel s) as [[[]|e|] s1]; simpl in *.
    + exact (IH s1).
    + exfalso. exact (Hnr e eq_refl).
    + split; [discriminate | reflexivity].
Qed.

Lemma main_cron ticks (s : state W) trigger :
  String.eqb (DOCKERHUB_USERNAME cfg) "" = false ->
  String.eqb (DOCKERHUB_TOKEN cfg) "" = false ->
  String.eqb (CRON_SCHEDULE cfg) "" = false ->
  from_crontab (CRON_SCHEDULE cfg) = Some trigger ->
  main cfg fuel ticks s =
    match safe_run_cleanup cfg fuel
            (logged (logged s [EvLog INFO (MsgCronMode (CRON_SCHEDULE cfg))])
               [EvLog INFO MsgRunningImmediately]) with
    | (Ok _, s1) =>
        try_except_interrupt (scheduler_start (safe_run_cleanup cfg fuel) ticks)
          (log INFO MsgSchedulerStopped) s1
    | (Raise e, s1) => (Raise e, s1)
    | (OutOfFuel, s1) => (OutOfFuel, s1)
    end.
Proof.
  intros Huser Htoken Hcron Hok. unfold main.
  rewrite Huser, Htoken, Hcron, Hok. reflexivity.
Qed.

(** C7. With the credentials set: (a) with an empty [CRON_SCHEDULE],
    [main] is [run_cleanup], so what the run raises reaches the
    interpreter and the exit status is 1; (b) with a schedule that
    [from_crontab] rejects, [main] logs the error and exits with status 1
    before any run; (c) with a valid schedule, [safe_run_cleanup] is
    [run_cleanup] with what it raises caught and logged, every run opens
    with its banner, and [main] ends normally (on the interrupt after
    [ticks] ticks) in the state that the immediate run followed by the
    [ticks] scheduled runs leave, each run starting where the previous one
    stopped; the one other outcome is a run that is still paginating when
    the bound on pages is reached. *)
Theorem entry_point_failure_policies :
  String.eqb (DOCKERHUB_USERNAME cfg) "" = false ->
  String.eqb (DOCKERHUB_TOKEN cfg) "" = false ->
  (String.eqb (CRON_SCHEDULE cfg) "" = true ->
     forall ticks (s : state W),
       main cfg fuel ticks s = run_cleanup cfg fuel s
       /\ forall e, fst (run_cleanup cfg fuel s) = Raise e ->
            fst (main cfg fuel ticks s) = Raise e
            /\ exit_status (fst (main cfg fuel ticks s)) = Some 1)
  /\ (String.eqb (CRON_SCHEDULE cfg) "" = false ->
      from_crontab (CRON_SCHEDULE cfg) = None ->
      forall ticks (s : state W),
        main cfg fuel ticks s =
          (Raise (SystemExit 1), logged s [EvLog ERROR (MsgInvalidCron (CRON_SCHEDULE cfg))])
        /\ exit_status (fst (main cfg fuel ticks s)) = Some 1)
  /\ (String.eqb (CRON_SCHEDULE cfg) "" = false ->
      forall trigger, from_crontab (CRON_SCHEDULE cfg) = Some trigger ->
      (forall (s : state W) s',
          run_cleanup cfg fuel s = (Ok tt, s') ->
          safe_run_cleanup cfg fuel s = (Ok tt, s'))
      /\ (forall (s : state W) e s',
            run_cleanup cfg fuel s = (Raise e, s') ->
            safe_run_cleanup cfg fuel s =
              (Ok tt, logged s' [EvLog ERROR (MsgRunFailed e); EvLog INFO MsgWillRetry]))
      /\ (forall (s : state W),
            exists tr, trace (snd (safe_run_cleanup cfg fuel s))
                       = trace s ++ EvLog INFO (MsgBanner cfg) :: tr)
      /\ forall ticks (s : state W),
           let s0 := logged (logged s [EvLog INFO (MsgCronMode (CRON_SCHEDULE cfg))])
                       [EvLog INFO MsgRunningImmediately] in
           (runs_complete cfg fuel (S ticks) s0 = true ->
              main cfg fuel ticks s =
                (Ok tt, logged (after_runs cfg fuel (S ticks) s0)
                          [EvLog INFO MsgSchedulerStopped]))
           /\ (runs_complete cfg fuel (S ticks) s0 = false ->
                 fst (main cfg fuel ticks s) = OutOfFuel)).
Proof.
  intros Huser Htoken.
  split; [|split].
  - intros Hcron ticks s.
    assert (Hmain : main cfg fuel ticks s = run_cleanup cfg fuel s).
    { unfold main. rewrite Huser, Htoken, Hcron. reflexivity. }
    split; [exact Hmain|].
    intros e He. rewrite Hmain. split; [exact He|].
    destruct (run_cleanup_grows s) as [_ HE]. specialize (HE e He).
    rewrite He. destruct e; try discriminate; reflexivity.
  - intros Hcron Hbad ticks s.
    assert (Hmain : main cfg fuel ticks s =
      (Raise (SystemExit 1), logged s [EvLog ERROR (MsgInvalidCron (CRON_SCHEDULE cfg))])).
    { unfold main. rewrite Huser, Htoken, Hcron, Hbad. reflexivity. }
    rewrite Hmain. split; reflexivity.
  - intros Hcron trigger Hok.
    split; [exact safe_run_cleanup_returns|].
    split; [exact safe_run_cleanup_catches|].
    split; [exact safe_run_cleanup_opens|].
    intros ticks s s0. rewrite (main_cron ticks s trigger Huser Htoken Hcron Hok).
    fold s0. cbn [runs_complete after_runs].
    pose proof (safe_run_cleanup_never_raises s0) as Hnr.
    destruct (safe_run_cleanup cfg fuel s0) as [[[]|e|] s1] eqn:Hfirst; simpl in Hnr |- *.
    + unfold try_except_interrupt.
      destruct (scheduler_start_exact ticks s1) as [Hdone Hshort].
      split.
      * intros Hall. rewrite (Hdone Hall). reflexivity.
      * intros Hnot. specialize (Hshort Hnot).
        destruct (scheduler_start (safe_run_cleanup cfg fuel) ticks s1)
          as [[[]|e|] s2]; simpl in Hshort; try discriminate. reflexivity.
    + exfalso. exact (Hnr e eq_refl).
    + split; [discriminate | reflexivity].
Qed.

End Orchestrator.

(* ===================================================================== *)
(** ** Authentication *)
(* ===================================================================== *)

(** [get_token] sends one request, however the registry answers. *)
Lemma get_token_one_request `{HW : Host W} (cfg : Config) (s : state W) :
  trace (snd (get_token cfg s)) = trace s ++ [EvPost LoginUrl].
Proof.
  unfold get_token, bind, call, raise_for_status, resp_json, py_getitem, ret, raise.
  destruct (requests_post _ _ _) as [[f|resp] w']; simpl; [reflexivity|].
  destruct (_ && _); simpl; [reflexivity|].
  destruct (body resp) as [[| | | | |items]|]; simpl; try reflexivity.
  destruct (items_lookup items "token"); reflexivity.
Qed.

(** C1, on the code.  Against a login endpoint that answers 503, 503 and
    then a token, [get_token] raises the first 503 after a single request:
    the second and third answers are never asked for. *)
Theorem get_token_gives_up_on_first_503 :
  get_token (HW := scripted_host calendar) dry_cfg (start flaky_login_answers noon_31_march)
  = (Raise (HTTPError 503),
     mkState {| answers := [ status_only 503;
                             ok_json (JObj [ ("token", JStr "retried") ]%string) ];
                clock := noon_31_march |}
             [EvPost LoginUrl]).
Proof. reflexivity. Qed.

(* ===================================================================== *)
(** ** The dry-run flag *)
(* ===================================================================== *)

(** C10. [DRY_RUN] is true exactly when the environment value, defaulting to
    "true" and lowercased, is one of "true", "1", "yes".  Unset gives true;
    "on", and "TRUE" followed by a space, give false, and with the flag
    false an eligible tag gets its delete request. *)
Theorem DRY_RUN_only_three_spellings :
  (forall environ,
      load_DRY_RUN environ = true <->
      In (lower (os_getenv environ "DRY_RUN" "true")) ["true"; "1"; "yes"]%string)
  /\ load_DRY_RUN ∅ = true
  /\ load_DRY_RUN (environ_with "Yes") = true
  /\ load_DRY_RUN (environ_with "on") = false
  /\ load_DRY_RUN (environ_with "TRUE ") = false
  /\ (forall W (HW : Host W) cfg environ token repo tag rank st (s : state W) why resp w',
         DRY_RUN cfg = load_DRY_RUN environ ->
         load_DRY_RUN environ = false ->
         verdict cfg (world s) tag rank = Ok (true, why) ->
         requests_delete (tag_url cfg repo tag) token (world s) = (inr resp, w') ->
         delete_calls (trace (snd (process_tag cfg token repo rank tag st s)))
         = delete_calls (trace s) ++ [tag_url cfg repo tag]).
Proof.
  split.
  { intros environ. unfold load_DRY_RUN. rewrite existsb_exists. split.
    - intros (x & Hin & Heq). apply String.eqb_eq in Heq. subst x. exact Hin.
    - intros Hin. eexists. split; [exact Hin|]. apply String.eqb_refl. }
  split; [vm_compute; reflexivity|].
  split; [vm_compute; reflexivity|].
  split; [vm_compute; reflexivity|].
  split; [vm_compute; reflexivity|].
  intros W HW cfg environ token repo tag rank st s why resp w' Hcfg Hoff Hv Hreq.
  rewrite Hoff in Hcfg.
  rewrite (process_tag_live cfg token repo tag rank st s why resp w' Hcfg Hv Hreq).
  destruct (status_code resp =? 204); simpl; rewrite delete_calls_app; reflexivity.
Qed.

(** The rule at both boundaries at once: [v4] is exactly 7 days old and sits
    at rank 3 with keep 3 and minimum age 7. *)
Lemma evaluate_tag_delete_iff_witness :
  py_in (tag_field tag_v4 "name" (JStr "")) (EXCLUDE_TAGS dry_cfg) = false
  /\ truthy (tag_field tag_v4 "last_updated" (JStr "")) = true
  /\ says_delete (evaluate_tag (HW := scripted_host calendar) dry_cfg
                    (JObj tag_v4) 3 (start [] noon_31_march))
  /\ ~ says_delete (evaluate_tag (HW := scripted_host calendar) dry_cfg
                      (JObj tag_v4) 2 (start [] noon_31_march)).
Proof.
  split; [reflexivity|]. split; [reflexivity|].
  split.
  - destruct (evaluate_tag_delete_iff (HW := scripted_host calendar) dry_cfg
                tag_v4 3 (start [] noon_31_march) eq_refl eq_refl) as [_ Hb].
    destruct (Hb 7 eq_refl) as [Hdel _].
    apply Hdel; reflexivity.
  - destruct (evaluate_tag_delete_iff (HW := scripted_host calendar) dry_cfg
                tag_v4 2 (start [] noon_31_march) eq_refl eq_refl) as [_ Hb].
    destruct (Hb 7 eq_refl) as [_ [Hkeep _]].
    apply Hkeep; reflexivity.
Defined.

(** "latest" at rank 9999 and thirty days old is kept as excluded; a tag
    with no [last_updated], or a null one, is kept at rank 99. *)
Lemma evaluate_tag_keeps_excluded_and_undated_witness :
  py_in (tag_field tag_latest "name" (JStr "")) (EXCLUDE_TAGS dry_cfg) = true
  /\ evaluate_tag (HW := scripted_host calendar) dry_cfg (JObj tag_latest) 9999
       (start [] noon_31_march)
     = (Ok (false, ExcludedTag (JStr "latest")), start [] noon_31_march)
  /\ truthy (tag_field tag_undated "last_updated" (JStr "")) = false
  /\ ~ says_delete (evaluate_tag (HW := scripted_host calendar) dry_cfg
                      (JObj tag_undated) 99 (start [] noon_31_march))
  /\ ~ says_delete (evaluate_tag (HW := scripted_host calendar) dry_cfg
                      (JObj tag_null_date) 99 (start [] noon_31_march)).
Proof.
  split; [reflexivity|]. split.
  - apply (evaluate_tag_keeps_excluded_and_undated (HW := scripted_host calendar)
             dry_cfg tag_latest 9999 (start [] noon_31_march)). reflexivity.
  - split; [reflexivity|]. split.
    + apply (evaluate_tag_keeps_excluded_and_undated (HW := scripted_host calendar)
               dry_cfg tag_undated 99 (start [] noon_31_march)). right. reflexivity.
    + apply (evaluate_tag_keeps_excluded_and_undated (HW := scripted_host calendar)
               dry_cfg tag_null_date 99 (start [] noon_31_march)). right. reflexivity.
Defined.

Lemma scripted_clock_still calendar' u tok (w : scripted) :
  datetime_now (Host := scripted_host calendar')
    (snd (requests_delete (Host := scripted_host calendar') u tok w))
  = datetime_now (Host := scripted_host calendar') w.
Proof. simpl. unfold next_answer. destruct (answers w); reflexivity. Qed.

(** A dry run over "app": five tags, newest first v5 v4 v3 v2 v1; v2 and v1
    are beyond the three kept and old enough.  No delete request, and the
    preview counts two. *)
Lemma process_repo_dry_run_witness :
  DRY_RUN dry_cfg = true
  /\ delete_calls (trace (snd (process_repo (HW := scripted_host calendar)
                                 dry_cfg 5 jwt app (start app_answers noon_31_march)))) = []
  /\ exists st,
       fst (process_repo (HW := scripted_host calendar)
              dry_cfg 5 jwt app (start app_answers noon_31_march)) = Ok st
       /\ deleted st = 2 /\ checked st = 5 /\ kept st = 3 /\ errors st = 0.
Proof.
  split; [reflexivity|].
  destruct (process_repo_dry_run (HW := scripted_host calendar)
              dry_cfg 5 jwt app (start app_answers noon_31_march) eq_refl)
    as [Hnone Hcount].
  split; [exact Hnone|].
  destruct (get_tags (HW := scripted_host calendar) dry_cfg 5 jwt app
              (logged (start app_answers noon_31_march)
                 [EvLog INFO (MsgRepository (DOCKERHUB_NAMESPACE dry_cfg) app)]))
    as [[tags|e|] s1] eqn:Hget; vm_compute in Hget; try discriminate.
  injection Hget as <- <-.
  destruct (Hcount _ _ eq_refl) as [Hret Hvals].
  destruct (Hret eq_refl) as [st Hst].
  exists st. split; [exact Hst|]. exact (Hvals st Hst).
Defined.

(** The same repository live: v2 is deleted (204), the request for v1 is
    refused (404) and counted as an error, and the run returns.  When the
    request for v2 times out instead, the loop raises after the three kept
    tags and that one request, and so does [process_repo]. *)
Lemma process_repo_live_witness :
  DRY_RUN live_cfg = false
  /\ (exists st s',
        process_repo (HW := scripted_host calendar)
          live_cfg 5 jwt app (start app_answers noon_31_march) = (Ok st, s')
        /\ delete_calls (trace s')
           = [] ++ [TagUrl "acme" app (JStr "v2"); TagUrl "acme" app (JStr "v1")]
        /\ checked st = 5 /\ deleted st = 1 /\ errors st = 1 /\ kept st = 3)
  /\ (exists s1,
        fst (process_tags (HW := scripted_host calendar) live_cfg jwt app 0
               ([JObj tag_v5; JObj tag_v4; JObj tag_v3] ++ JObj tag_v2 :: [JObj tag_v1])
               zero_stats (start [inl Timeout; status_only 204] noon_31_march))
        = Raise (RequestError Timeout)
        /\ delete_calls (trace s1) = [TagUrl "acme" app (JStr "v2")]
        /\ snd (process_tags (HW := scripted_host calendar) live_cfg jwt app 0
                  ([JObj tag_v5; JObj tag_v4; JObj tag_v3] ++ JObj tag_v2 :: [JObj tag_v1])
                  zero_stats (start [inl Timeout; status_only 204] noon_31_march)) = s1)
  /\ exists s2,
       process_repo (HW := scripted_host calendar) live_cfg 5 jwt app
         (start timeout_answers noon_31_march) = (Raise (RequestError Timeout), s2)
       /\ delete_calls (trace s2) = [TagUrl "acme" app (JStr "v2")]
       /\ answers (world s2) = [status_only 204].
Proof.
  split; [reflexivity|].
  destruct (process_repo_live (HW := scripted_host calendar)
              live_cfg 5 jwt app eq_refl) as (_ & Hraise & Hrepo & Habort).
  split; [|split].
  - destruct (get_tags (HW := scripted_host calendar) live_cfg 5 jwt app
                (logged (start app_answers noon_31_march)
                   [EvLog INFO (MsgRepository (DOCKERHUB_NAMESPACE live_cfg) app)]))
      as [[tags|e|] s1] eqn:Hget; vm_compute in Hget; try discriminate.
    injection Hget as <- <-.
    exact (Hrepo (start app_answers noon_31_march) _ _ eq_refl eq_refl eq_refl).
  - destruct (process_tags (HW := scripted_host calendar) live_cfg jwt app 0
                [JObj tag_v5; JObj tag_v4; JObj tag_v3] zero_stats
                (start [inl Timeout; status_only 204] noon_31_march))
      as [[st1|e|] s1] eqn:Hdone; pose proof Hdone as Hval; vm_compute in Hval;
      try discriminate.
    injection Hval as <- <-.
    pose proof (Hraise _ (JObj tag_v2) [JObj tag_v1] _ _ _ _ _
                  (BeyondKeepOldEnough 4 3 21 7) Timeout
                  {| answers := [status_only 204]; clock := noon_31_march |}
                  Hdone ltac:(vm_compute; reflexivity) ltac:(vm_compute; reflexivity))
      as Hrun.
    eexists. rewrite Hrun. split; [reflexivity|]. split; [|reflexivity].
    vm_compute. reflexivity.
  - destruct (get_tags (HW := scripted_host calendar) live_cfg 5 jwt app
                (logged (start timeout_answers noon_31_march)
                   [EvLog INFO (MsgRepository (DOCKERHUB_NAMESPACE live_cfg) app)]))
      as [[tags|e|] s0] eqn:Hget; pose proof Hget as Hval; vm_compute in Hval;
      try discriminate.
    injection Hval as <- <-.
    match type of Hget with
    | _ = (_, ?s0) =>
        destruct (process_tags (HW := scripted_host calendar) live_cfg jwt app 0
                    [JObj tag_v5; JObj tag_v4; JObj tag_v3]
                    {| checked := 5; deleted := 0; kept := 0; errors := 0 |} s0)
          as [[st1|e|] s1] eqn:Hdone; pose proof Hdone as Hval; vm_compute in Hval;
          try discriminate
    end.
    injection Hval as <- <-.
    pose proof (Habort (start timeout_answers noon_31_march)
                  [JObj tag_v5; JObj tag_v4; JObj tag_v3] (JObj tag_v2) [JObj tag_v1]
                  _ _ _ (BeyondKeepOldEnough 4 3 21 7) Timeout
                  {| answers := [status_only 204]; clock := noon_31_march |}
                  Hget Hdone ltac:(vm_compute; reflexivity) ltac:(vm_compute; reflexivity))
      as Hrun.
    eexists. split; [exact Hrun|]. split; vm_compute; reflexivity.
Defined.

(** The listing of "app" goes through, then the delete request for v2 times
    out: [process_repo] raises the timeout and v1, eligible too, never gets
    its request. *)
Lemma process_repo_aborts_on_a_timeout :
  ~ every_eligible_tag_requested (HW := scripted_host calendar) live_cfg 5 jwt app
      (start timeout_answers noon_31_march).
Proof.
  unfold every_eligible_tag_requested. intros Hall.
  destruct (get_tags (HW := scripted_host calendar) live_cfg 5 jwt app
              (logged (start timeout_answers noon_31_march)
                 [EvLog INFO (MsgRepository (DOCKERHUB_NAMESPACE live_cfg) app)]))
    as [[tags|e|] s1] eqn:Hget; pose proof Hget as Hval; vm_compute in Hval;
    try discriminate.
  destruct (Hall tags s1 eq_refl) as [Hnoraise _].
  apply (Hnoraise (RequestError Timeout)). vm_compute. reflexivity.
Qed.

(** What that run does, and what it leaves undone. *)
Example process_repo_timeout_run :
  fst (process_repo (HW := scripted_host calendar) live_cfg 5 jwt app
         (start timeout_answers noon_31_march)) = Raise (RequestError Timeout)
  /\ delete_calls (trace (snd (process_repo (HW := scripted_host calendar) live_cfg 5 jwt app
                                 (start timeout_answers noon_31_march))))
     = [TagUrl "acme" app (JStr "v2")].
Proof. split; vm_compute; reflexivity. Qed.

(** Two configured repositories; the login succeeds, then the tag listing of
    "app" is answered with a 500.  The run announces two repositories,
    raises, and "web" is never attempted. *)
Lemma run_cleanup_leaves_web_unattempted :
  ~ targets_attempted (HW := scripted_host calendar) two_repo_cfg 5
      (start [login_ok; status_only 500] noon_31_march).
Proof.
  unfold targets_attempted, attempted. intros Hall.
  assert (Hlisted : In (EvLog INFO (MsgProcessing (length (REPOS_TO_CLEAN two_repo_cfg))))
            (trace (snd (run_cleanup (HW := scripted_host calendar) two_repo_cfg 5
                           (start [login_ok; status_only 500] noon_31_march))))).
  { vm_compute. right. right. left. reflexivity. }
  specialize (Hall Hlisted "web"%string (or_intror (or_introl eq_refl))).
  vm_compute in Hall.
  repeat (destruct Hall as [Hall|Hall]; [discriminate Hall|]).
  exact Hall.
Qed.

(** What that run does: the 500 of the first listing ends it. *)
Example run_cleanup_raises_the_listing_failure :
  fst (run_cleanup (HW := scripted_host calendar) two_repo_cfg 5
         (start [login_ok; status_only 500] noon_31_march))
  = Raise (HTTPError 500).
Proof. reflexivity. Qed.

(** The loop over "app" and "web" when the listing of "app" gets a 500: it
    raises in the state "app" left, with the one request made so far. *)
Lemma process_repos_until_first_failure_witness :
  exists s2,
    process_repos (HW := scripted_host calendar) two_repo_cfg 5 jwt [] zero_stats
      (start [status_only 500] noon_31_march)
      = (Ok zero_stats, start [status_only 500] noon_31_march)
    /\ process_repo (HW := scripted_host calendar) two_repo_cfg 5 jwt app
         (start [status_only 500] noon_31_march) = (Raise (HTTPError 500), s2)
    /\ process_repos (HW := scripted_host calendar) two_repo_cfg 5 jwt
         ([] ++ app :: [JStr "web"]) zero_stats (start [status_only 500] noon_31_march)
       = (Raise (HTTPError 500), s2)
    /\ trace s2 = [EvLog INFO (MsgRepository "acme" app); EvGet (TagsUrl "acme" app) jwt].
Proof.
  eexists. split; [reflexivity|]. split; [vm_compute; reflexivity|]. split.
  - apply (proj1 (proj2 (process_repos_until_first_failure
                           (HW := scripted_host calendar) two_repo_cfg 5))
             jwt [] app [JStr "web"] zero_stats (start [status_only 500] noon_31_march)
             zero_stats (start [status_only 500] noon_31_march) (HTTPError 500)).
    + reflexivity.
    + vm_compute. reflexivity.
  - reflexivity.
Defined.

(** Cron mode with the registry unreachable: the immediate run and both
    scheduled runs fail to log in, each failure is logged, and [main] ends
    normally on the interrupt, three banners and three failures in its log.
    One-shot mode against the same registry exits with status 1, and so
    does a schedule that is not a cron expression. *)
Lemma entry_point_failure_policies_witness :
  String.eqb (DOCKERHUB_USERNAME cron_cfg) "" = false
  /\ String.eqb (DOCKERHUB_TOKEN cron_cfg) "" = false
  /\ from_crontab (Host := scripted_host calendar) (CRON_SCHEDULE cron_cfg)
     = Some (Trigger "0 3 * * 0")
  /\ runs_complete (HW := scripted_host calendar) cron_cfg 5 3
       (logged (logged (start [] noon_31_march)
                  [EvLog INFO (MsgCronMode (CRON_SCHEDULE cron_cfg))])
          [EvLog INFO MsgRunningImmediately]) = true
  /\ main (HW := scripted_host calendar) cron_cfg 5 2 (start [] noon_31_march)
     = (Ok tt,
        logged (after_runs (HW := scripted_host calendar) cron_cfg 5 3
                  (logged (logged (start [] noon_31_march)
                             [EvLog INFO (MsgCronMode (CRON_SCHEDULE cron_cfg))])
                     [EvLog INFO MsgRunningImmediately]))
          [EvLog INFO MsgSchedulerStopped])
  /\ List.filter (fun e => match e with
                           | EvLog _ (MsgBanner _) | EvLog _ (MsgRunFailed _) => true
                           | _ => false
                           end)
       (trace (snd (main (HW := scripted_host calendar) cron_cfg 5 2
                      (start [] noon_31_march))))
     = [ EvLog INFO (MsgBanner cron_cfg);
         EvLog ERROR (MsgRunFailed (RequestError ConnectionError));
         EvLog INFO (MsgBanner cron_cfg);
         EvLog ERROR (MsgRunFailed (RequestError ConnectionError));
         EvLog INFO (MsgBanner cron_cfg);
         EvLog ERROR (MsgRunFailed (RequestError ConnectionError)) ]
  /\ exit_status (fst (main (HW := scripted_host calendar) dry_cfg 5 2
                         (start [] noon_31_march))) = Some 1
  /\ exit_status (fst (main (HW := scripted_host calendar) bad_cron_cfg 5 2
                         (start [] noon_31_march))) = Some 1.
Proof.
  split; [reflexivity|]. split; [reflexivity|]. split; [reflexivity|].
  assert (Hall : runs_complete (HW := scripted_host calendar) cron_cfg 5 3
            (logged (logged (start [] noon_31_march)
                       [EvLog INFO (MsgCronMode (CRON_SCHEDULE cron_cfg))])
               [EvLog INFO MsgRunningImmediately]) = true).
  { vm_compute. reflexivity. }
  split; [exact Hall|].
  split; [|split; [|split]].
  - destruct (entry_point_failure_policies (HW := scripted_host calendar)
                cron_cfg 5 eq_refl eq_refl) as (_ & _ & Hcron).
    destruct (Hcron eq_refl (Trigger "0 3 * * 0") eq_refl) as (_ & _ & _ & Hmain).
    exact (proj1 (Hmain 2%nat (start [] noon_31_march)) Hall).
  - vm_compute. reflexivity.
  - destruct (entry_point_failure_policies (HW := scripted_host calendar)
                dry_cfg 5 eq_refl eq_refl) as (Honce & _ & _).
    destruct (Honce eq_refl 2%nat (start [] noon_31_march)) as [_ Hfail].
    exact (proj2 (Hfail (RequestError ConnectionError) eq_refl)).
  - destruct (entry_point_failure_policies (HW := scripted_host calendar)
                bad_cron_cfg 5 eq_refl eq_refl) as (_ & Hbad & _).
    exact (proj2 (Hbad eq_refl eq_refl 2%nat (start [] noon_31_march))).
Defined.

(** The two pages of "app" are served in a chain, and [paginate] returns the
    five tags in page order after two requests. *)
Lemma paginate_all_pages_witness :
  serves (HW := scripted_host calendar) jwt
    {| answers := app_answers; clock := noon_31_march |}
    (TagsUrl "acme" app) app_pages
    {| answers := [status_only 204; status_only 404]; clock := noon_31_march |}
  /\ (length app_pages <= 5)%nat
  /\ exists tr',
       paginate (HW := scripted_host calendar) 5 (TagsUrl "acme" app) jwt
         (start app_answers noon_31_march)
       = (Ok [JObj tag_v3; JObj tag_v1; JObj tag_v5; JObj tag_v2; JObj tag_v4],
          mkState {| answers := [status_only 204; status_only 404]; clock := noon_31_march |}
                  ([] ++ tr'))
       /\ length tr' = 2%nat.
Proof.
  assert (Hserves : serves (HW := scripted_host calendar) jwt
            {| answers := app_answers; clock := noon_31_march |}
            (TagsUrl "acme" app) app_pages
            {| answers := [status_only 204; status_only 404]; clock := noon_31_march |}).
  { unfold app_pages.
    eapply serves_page; [reflexivity | vm_compute; reflexivity |].
    eapply serves_page; [reflexivity | vm_compute; reflexivity |].
    apply serves_done. reflexivity. }
  split; [exact Hserves|]. split; [simpl; lia|].
  exact (proj1 (paginate_all_pages (HW := scripted_host calendar) jwt)
           _ _ _ _ Hserves 5%nat [] ltac:(simpl; lia)).
Defined.

(** The live run over "app" returns checked 5 = deleted 1 + kept 3 +
    errors 1. *)
Lemma stats_partitioned_witness :
  exists st s',
    process_repo (HW := scripted_host calendar) live_cfg 5 jwt app
      (start app_answers noon_31_march) = (Ok st, s')
    /\ partitioned st
    /\ st = {| checked := 5; deleted := 1; kept := 3; errors := 1 |}.
Proof.
  destruct (process_repo (HW := scripted_host calendar) live_cfg 5 jwt app
              (start app_answers noon_31_march)) as [[st|e|] s'] eqn:Hrun;
    pose proof Hrun as Hval; vm_compute in Hval; try discriminate.
  exists st, s'. split; [reflexivity|]. split.
  - exact (proj1 (stats_partitioned (HW := scripted_host calendar) live_cfg 5)
             jwt app (start app_answers noon_31_march) st s' Hrun).
  - injection Hval as <- _. reflexivity.
Defined.

(** "Yes" lowercases to one of the three spellings, so the flag is on. *)
Lemma DRY_RUN_only_three_spellings_witness :
  In (lower (os_getenv (environ_with "Yes") "DRY_RUN" "true")) ["true"; "1"; "yes"]%string
  /\ load_DRY_RUN (environ_with "Yes") = true.
Proof.
  assert (Hin : In (lower (os_getenv (environ_with "Yes") "DRY_RUN" "true"))
                  ["true"; "1"; "yes"]%string).
  { vm_compute. right. right. left. reflexivity. }
  split; [exact Hin|].
  exact (proj2 (proj1 DRY_RUN_only_three_spellings (environ_with "Yes")) Hin).
Defined.

(* ===================================================================== *)
(** ** More on the retention rule *)
(* ===================================================================== *)

Section RetentionMore.
Context {W : Type} `{HW : Host W}.
Variable cfg : Config.

(** What a delete verdict tells about the tag. *)
Lemma delete_verdict_inv w tag rank why :
  verdict cfg w tag rank = Ok (true, why) ->
  exists items age,
    tag = JObj items
    /\ py_in (tag_field items "name" (JStr "")) (EXCLUDE_TAGS cfg) = false
    /\ truthy (tag_field items "last_updated" (JStr "")) = true
    /\ age_days_at (datetime_now w) (tag_field items "last_updated" (JStr "")) = Some age
    /\ KEEP_LAST_N cfg <= rank
    /\ MIN_AGE_DAYS cfg <= age
    /\ why = BeyondKeepOldEnough (rank + 1) (KEEP_LAST_N cfg) age (MIN_AGE_DAYS cfg).
Proof.
  unfold verdict, evaluate_tag, bind, py_get, ret, raise, age_days_at, tag_field.
  destruct tag as [| | | | |items]; simpl; try discriminate.
  destruct (py_in _ _) eqn:Hex; simpl; [discriminate|].
  destruct (truthy _) eqn:Hts; simpl; [|discriminate].
  destruct (default _ (items_lookup items "last_updated")) as [| | |ts| |] eqn:Hfield;
    simpl; try discriminate.
  destruct (datetime_fromisoformat _) as [[t|t]|] eqn:Hparse; simpl; try discriminate.
  destruct (Z.leb_spec (KEEP_LAST_N cfg) rank) as [Hk|Hk];
    destruct (Z.leb_spec (MIN_AGE_DAYS cfg) ((datetime_now w - t) / US_PER_DAY))
      as [Ha|Ha]; simpl; try discriminate.
  intros [= <-]. exists items, ((datetime_now w - t) / US_PER_DAY).
  rewrite Hfield, Hparse.
  split; [reflexivity|]. split; [exact Hex|]. split; [exact Hts|].
  split; [reflexivity|]. split; [exact Hk|]. split; [exact Ha|]. reflexivity.
Qed.

(** X1. Whenever [evaluate_tag] returns delete, the tag is a dict whose
    name is not excluded, its timestamp yields an age, the rank is at least
    [KEEP_LAST_N], the age at least [MIN_AGE_DAYS], and the reason carries
    the 1-based rank, the keep threshold, the age and the minimum.  So no
    tag of any shape is deleted at a rank below [KEEP_LAST_N]. *)
Theorem delete_only_beyond_keep_and_old tag rank (s : state W) :
  (forall why, fst (evaluate_tag cfg tag rank s) = Ok (true, why) ->
     exists items age,
       tag = JObj items
       /\ py_in (tag_field items "name" (JStr "")) (EXCLUDE_TAGS cfg) = false
       /\ age_days_at (datetime_now (world s))
            (tag_field items "last_updated" (JStr "")) = Some age
       /\ KEEP_LAST_N cfg <= rank
       /\ MIN_AGE_DAYS cfg <= age
       /\ why = BeyondKeepOldEnough (rank + 1) (KEEP_LAST_N cfg) age (MIN_AGE_DAYS cfg))
  /\ (rank < KEEP_LAST_N cfg -> ~ says_delete (evaluate_tag cfg tag rank s)).
Proof.
  split.
  - intros why Hd. rewrite evaluate_tag_eq in Hd. simpl in Hd.
    destruct (delete_verdict_inv _ _ _ _ Hd)
      as (items & age & Htag & Hex & _ & Hage & Hk & Ha & Hwhy).
    exists items, age. repeat (split; [assumption|]). assumption.
  - intros Hlt [why Hd]. rewrite evaluate_tag_eq in Hd. simpl in Hd.
    destruct (delete_verdict_inv _ _ _ _ Hd) as (_ & _ & _ & _ & _ & _ & Hk & _).
    lia.
Qed.

(** X2. The delete verdict is monotone: a tag deleted at some rank and some
    instant is also deleted at every later rank and every later instant. *)
Theorem delete_is_monotone tag rank rank' (s s' : state W) :
  says_delete (evaluate_tag cfg tag rank s) ->
  rank <= rank' ->
  datetime_now (world s) <= datetime_now (world s') ->
  says_delete (evaluate_tag cfg tag rank' s').
Proof.
  intros [why Hd] Hrank Hnow. rewrite evaluate_tag_eq in Hd. simpl in Hd.
  destruct (delete_verdict_inv _ _ _ _ Hd)
    as (items & age & -> & Hex & Hts & Hage & Hk & Ha & _).
  unfold age_days_at in Hage.
  destruct (tag_field items "last_updated" (JStr "")) as [| | |ts| |] eqn:Hfield;
    try discriminate.
  destruct (datetime_fromisoformat (replace_Z ts)) as [[t|t]|] eqn:Hparse;
    try discriminate.
  injection Hage as <-.
  assert (Hage' : age_days_at (datetime_now (world s'))
                    (tag_field items "last_updated" (JStr ""))
                  = Some ((datetime_now (world s') - t) / US_PER_DAY)).
  { rewrite Hfield. unfold age_days_at. rewrite Hparse. reflexivity. }
  assert (Hmono : (datetime_now (world s) - t) / US_PER_DAY
                  <= (datetime_now (world s') - t) / US_PER_DAY).
  { apply Z.div_le_mono; [reflexivity | lia]. }
  unfold says_delete.
  rewrite (evaluate_tag_dated cfg items rank' s' _ Hex
             ltac:(rewrite Hfield; exact Hts) Hage').
  destruct (Z.leb_spec (KEEP_LAST_N cfg) rank'); [|lia].
  destruct (Z.leb_spec (MIN_AGE_DAYS cfg)
              ((datetime_now (world s') - t) / US_PER_DAY)); [|lia].
  simpl. eexists. reflexivity.
Qed.

End RetentionMore.

(* ===================================================================== *)
(** ** More on one repository and on a whole run *)
(* ===================================================================== *)

Section RunMore.
Context {W : Type} `{HW : Host W}.
Variable cfg : Config.
Variable fuel : nat.

Lemma process_tag_within_keep token repo rank tag st (s : state W) st' s' :
  rank < KEEP_LAST_N cfg ->
  process_tag cfg token repo rank tag st s = (Ok st', s') ->
  st' = incr_kept st.
Proof.
  intros Hlt Hrun.
  destruct (verdict cfg (world s) tag rank) as [[[|] why]|e|] eqn:Hv.
  - destruct (delete_verdict_inv cfg _ _ _ _ Hv) as (_ & _ & _ & _ & _ & _ & Hk & _).
    lia.
  - rewrite (process_tag_keeps cfg token repo tag rank st s why Hv) in Hrun.
    injection Hrun as <- _. reflexivity.
  - rewrite (process_tag_raises cfg token repo tag rank st s e Hv) in Hrun.
    discriminate.
  - exfalso. exact (verdict_in_fuel cfg _ _ _ Hv).
Qed.

Lemma process_tags_kept_lower token repo tags : forall rank st (s : state W) st' s',
  process_tags cfg token repo rank tags st s = (Ok st', s') ->
  kept st + Z.min (Z.of_nat (length tags)) (Z.max 0 (KEEP_LAST_N cfg - rank))
  <= kept st'.
Proof.
  induction tags as [|t rest IH]; intros rank st s st' s' Hrun.
  - simpl in Hrun. injection Hrun as <- _. simpl. lia.
  - rewrite process_tags_cons in Hrun.
    destruct (process_tag cfg token repo rank t st s) as [[st1|e|] s1] eqn:Hstep;
      try discriminate.
    specialize (IH _ _ _ _ _ Hrun).
    destruct (Z.lt_ge_cases rank (KEEP_LAST_N cfg)) as [Hlt|Hge].
    + rewrite (process_tag_within_keep _ _ _ _ _ _ _ _ Hlt Hstep) in IH.
      simpl in IH. simpl length. lia.
    + destruct (process_tag_one_bucket _ _ _ _ _ _ _ _ _ Hstep) as [ -> | [ -> | -> ] ];
        simpl in IH; simpl length; lia.
Qed.

Lemma picked_app tr1 tr2 :
  picked_for_deletion (tr1 ++ tr2) = picked_for_deletion tr1 ++ picked_for_deletion tr2.
Proof. unfold picked_for_deletion. apply omap_app. Qed.

Lemma get_tags_picks_nothing token repo (s : state W) :
  picked_for_deletion (trace (snd (get_tags cfg fuel token repo s)))
  = picked_for_deletion (trace s).
Proof.
  refine (proj1 (respects_get_tags
    (fun s1 s2 => picked_for_deletion (trace s2) = picked_for_deletion (trace s1))
    (fun _ => True) _ _ _ _ cfg fuel token repo s)).
  - reflexivity.
  - intros s1 s2 s3 H12 H23. rewrite H23. exact H12.
  - intros s1 u t w'. simpl. rewrite picked_app. apply app_nil_r.
  - intros e _. exact I.
Qed.

(** The tags the loop picks for deletion, in a dry or a live run and
    however the loop ends, are tags at rank [KEEP_LAST_N] or beyond, each
    picked at most once and in rank order. *)
Lemma process_tags_picks_beyond_keep token repo tags : forall rank st (s : state W),
  exists picked,
    sublist picked (drop (Z.to_nat (KEEP_LAST_N cfg - rank)) tags)
    /\ picked_for_deletion (trace (snd (process_tags cfg token repo rank tags st s)))
       = picked_for_deletion (trace s) ++ map tag_name picked
    /\ delete_calls (trace (snd (process_tags cfg token repo rank tags st s)))
       = delete_calls (trace s)
         ++ (if DRY_RUN cfg then [] else map (tag_url cfg repo) picked).
Proof.
  induction tags as [|t rest IH]; intros rank st s.
  - exists []. simpl. rewrite drop_nil. split; [constructor|].
    rewrite !app_nil_r. destruct (DRY_RUN cfg); rewrite ?app_nil_r; split; reflexivity.
  - rewrite process_tags_cons.
    destruct (verdict cfg (world s) t rank) as [[[|] why]|e|] eqn:Hv.
    + destruct (delete_verdict_inv cfg _ _ _ _ Hv) as (_ & _ & _ & _ & _ & _ & Hk & _).
      replace (Z.to_nat (KEEP_LAST_N cfg - rank)) with 0%nat by lia. rewrite drop_0.
      assert (Hnext : Z.to_nat (KEEP_LAST_N cfg - (rank + 1)) = 0%nat) by lia.
      destruct (DRY_RUN cfg) eqn:Hdry.
      * rewrite (process_tag_dry cfg token repo t rank st s why Hdry Hv).
        destruct (IH (rank + 1) (incr_deleted st)
                    (logged s [EvLog INFO (MsgWouldDelete repo (tag_name t) why)]))
          as (picked & Hsub & Hpick & Hcalls).
        rewrite Hnext, drop_0 in Hsub.
        exists (t :: picked). split; [apply sublist_skip; exact Hsub|].
        rewrite Hpick, Hcalls. simpl trace. rewrite picked_app, delete_calls_app. simpl.
        rewrite <- !app_assoc, !app_nil_r. split; reflexivity.
      * destruct (requests_delete (tag_url cfg repo t) token (world s))
          as [[f|resp] w'] eqn:Hreq.
        { rewrite (process_tag_live_unreachable cfg token repo t rank st s why f w'
                     Hdry Hv Hreq).
          exists [t]. split; [apply sublist_skip, sublist_nil_l|].
          simpl. rewrite picked_app, delete_calls_app. split; reflexivity. }
        { rewrite (process_tag_live cfg token repo t rank st s why resp w' Hdry Hv Hreq).
          destruct (status_code resp =? 204).
          - destruct (IH (rank + 1) (incr_deleted st)
                        (mkState w' (trace s ++
                           [EvLog INFO (MsgDeleting repo (tag_name t) why);
                            EvDelete (tag_url cfg repo t) token;
                            EvLog INFO (MsgDeleted repo (tag_name t))])))
              as (picked & Hsub & Hpick & Hcalls).
            rewrite Hnext, drop_0 in Hsub.
            exists (t :: picked). split; [apply sublist_skip; exact Hsub|].
            rewrite Hpick, Hcalls. simpl trace. rewrite picked_app, delete_calls_app.
            simpl. rewrite <- !app_assoc. split; reflexivity.
          - destruct (IH (rank + 1) (incr_errors st)
                        (mkState w' (trace s ++
                           [EvLog INFO (MsgDeleting repo (tag_name t) why);
                            EvDelete (tag_url cfg repo t) token;
                            EvLog ERROR (MsgFailedToDelete repo (tag_name t))])))
              as (picked & Hsub & Hpick & Hcalls).
            rewrite Hnext, drop_0 in Hsub.
            exists (t :: picked). split; [apply sublist_skip; exact Hsub|].
            rewrite Hpick, Hcalls. simpl trace. rewrite picked_app, delete_calls_app.
            simpl. rewrite <- !app_assoc. split; reflexivity. }
    + rewrite (process_tag_keeps cfg token repo t rank st s why Hv).
      destruct (IH (rank + 1) (incr_kept st)
                  (logged s [EvLog DEBUG (MsgKeeping repo (tag_name t) why)]))
        as (picked & Hsub & Hpick & Hcalls).
      exists picked. split.
      * destruct (Z.lt_ge_cases rank (KEEP_LAST_N cfg)) as [Hlt|Hge].
        { replace (Z.to_nat (KEEP_LAST_N cfg - rank))
            with (S (Z.to_nat (KEEP_LAST_N cfg - (rank + 1)))) by lia.
          exact Hsub. }
        { replace (Z.to_nat (KEEP_LAST_N cfg - rank)) with 0%nat by lia.
          replace (Z.to_nat (KEEP_LAST_N cfg - (rank + 1))) with 0%nat in Hsub by lia.
          rewrite drop_0 in *. apply sublist_cons. exact Hsub. }
      * rewrite Hpick, Hcalls. simpl trace. rewrite picked_app, delete_calls_app. simpl.
        rewrite !app_nil_r. split; reflexivity.
    + rewrite (process_tag_raises cfg token repo t rank st s e Hv).
      exists []. split; [apply sublist_nil_l|]. simpl. rewrite !app_nil_r.
      destruct (DRY_RUN cfg); rewrite ?app_nil_r; split; reflexivity.
    + exfalso. exact (verdict_in_fuel cfg _ _ _ Hv).
Qed.

(** X3. The first [KEEP_LAST_N] tags of the sorted listing are never picked
    for deletion: in a dry or a live run, and however [process_repo] ends,
    the tags it marks ("would delete" or "Deleting") and, live, sends delete
    requests for are tags of the listing at rank [KEEP_LAST_N] or beyond,
    at most once each and in rank order, whatever their ages and whatever
    the clock and the registry do during the run.  So when it returns,
    [kept >= min(checked, KEEP_LAST_N)] and
    [deleted + errors <= max(0, checked - KEEP_LAST_N)]. *)
Theorem process_repo_keeps_newest token repo (s : state W) :
  (forall tags s1,
      get_tags cfg fuel token repo
        (logged s [EvLog INFO (MsgRepository (DOCKERHUB_NAMESPACE cfg) repo)])
        = (Ok tags, s1) ->
      exists picked,
        sublist picked (drop (Z.to_nat (KEEP_LAST_N cfg)) tags)
        /\ picked_for_deletion (trace (snd (process_repo cfg fuel token repo s)))
           = picked_for_deletion (trace s) ++ map tag_name picked
        /\ delete_calls (trace (snd (process_repo cfg fuel token repo s)))
           = delete_calls (trace s)
             ++ (if DRY_RUN cfg then [] else map (tag_url cfg repo) picked))
  /\ (forall st s',
        process_repo cfg fuel token repo s = (Ok st, s') ->
        Z.min (checked st) (KEEP_LAST_N cfg) <= kept st
        /\ deleted st + errors st <= Z.max 0 (checked st - KEEP_LAST_N cfg)).
Proof.
  split.
  - intros tags s1 Hget.
    pose proof (get_tags_picks_nothing token repo
      (logged s [EvLog INFO (MsgRepository (DOCKERHUB_NAMESPACE cfg) repo)])) as Hp.
    pose proof (no_delete_get_tags cfg fuel token repo
      (logged s [EvLog INFO (MsgRepository (DOCKERHUB_NAMESPACE cfg) repo)])) as Hq.
    rewrite Hget in Hp, Hq. simpl in Hp, Hq.
    rewrite picked_app in Hp. rewrite delete_calls_app in Hq. simpl in Hp, Hq.
    rewrite app_nil_r in Hp, Hq.
    destruct (process_tags_picks_beyond_keep token repo tags 0
                {| checked := Z.of_nat (length tags); deleted := 0; kept := 0; errors := 0 |}
                s1) as (picked & Hsub & Hpick & Hcalls).
    rewrite Z.sub_0_r in Hsub.
    exists picked. split; [exact Hsub|].
    rewrite process_repo_unfold, Hget.
    destruct (process_tags _ _ _ _ _ _ _) as [[st|e|] s2]; simpl in *;
      rewrite ?picked_app, ?delete_calls_app; simpl; rewrite ?app_nil_r;
      rewrite Hpick, Hcalls, Hp, Hq; split; reflexivity.
  - intros st s' Hrun.
    pose proof (process_repo_partitioned cfg fuel token repo s st s' Hrun) as Hp.
    rewrite process_repo_unfold in Hrun.
    destruct (get_tags _ _ _ _ _) as [[tags|e|] s1]; try discriminate.
    destruct (process_tags _ _ _ _ _ _ _) as [[st1|e|] s2] eqn:Hloop; try discriminate.
    injection Hrun as <- _.
    pose proof (process_tags_kept_lower _ _ _ _ _ _ _ _ Hloop) as Hk.
    destruct (process_tags_buckets _ _ _ _ _ _ _ _ _ Hloop) as [Hc _].
    unfold partitioned in Hp. simpl in *. lia.
Qed.

(** X4. A tag dict without a ["name"] is tested against [EXCLUDE_TAGS] as
    the empty string, but is logged and deleted as "unknown": when it is
    eligible in live mode the delete request goes to the URL of tag
    "unknown", also when "unknown" is itself an excluded name. *)
Theorem nameless_tag_is_deleted_as_unknown token repo items rank st (s : state W)
    why resp w' :
  items_lookup items "name" = None ->
  DRY_RUN cfg = false ->
  verdict cfg (world s) (JObj items) rank = Ok (true, why) ->
  requests_delete (TagUrl (DOCKERHUB_NAMESPACE cfg) repo (JStr "unknown")) token (world s)
    = (inr resp, w') ->
  py_in (JStr "") (EXCLUDE_TAGS cfg) = false
  /\ delete_calls (trace (snd (process_tag cfg token repo rank (JObj items) st s)))
     = delete_calls (trace s) ++ [TagUrl (DOCKERHUB_NAMESPACE cfg) repo (JStr "unknown")].
Proof.
  intros Hname Hlive Hv Hreq.
  destruct (delete_verdict_inv cfg _ _ _ _ Hv) as (items' & _ & Heq & Hex & _).
  injection Heq as <-. unfold tag_field in Hex. rewrite Hname in Hex. simpl default in Hex.
  split; [exact Hex|].
  assert (Hurl : tag_url cfg repo (JObj items)
                 = TagUrl (DOCKERHUB_NAMESPACE cfg) repo (JStr "unknown")).
  { unfold tag_url, tag_name, tag_field. rewrite Hname. reflexivity. }
  rewrite <- Hurl in Hreq |- *.
  rewrite (process_tag_live cfg token repo (JObj items) rank st s why resp w' Hlive Hv Hreq).
  destruct (status_code resp =? 204); simpl; rewrite delete_calls_app; reflexivity.
Qed.

(** *** A dry run sends no delete request, from the entry point down *)

Lemma no_delete_then {A B} (m : M W A) (k : A -> M W B) :
  no_delete m -> (forall a, no_delete (k a)) -> no_delete (bind m k).
Proof.
  intros Hm Hk s. unfold bind. specialize (Hm s).
  destruct (m s) as [[a|e|] s1]; simpl in *; try exact Hm.
  rewrite (Hk a s1). exact Hm.
Qed.

Lemma no_delete_log lvl msg : no_delete (W := W) (log lvl msg).
Proof.
  intros s. unfold log, emit. simpl. rewrite delete_calls_app. apply app_nil_r.
Qed.

Lemma no_delete_ret {A} (a : A) : no_delete (W := W) (ret a).
Proof. intros s. reflexivity. Qed.

Lemma no_delete_get_token : no_delete (get_token (W := W) cfg).
Proof.
  intros s. rewrite get_token_one_request, delete_calls_app. apply app_nil_r.
Qed.

Lemma no_delete_get_repositories token : no_delete (get_repositories cfg fuel token).
Proof.
  intros s.
  refine (proj1 (respects_get_repositories
    (fun s1 s2 => delete_calls (trace s2) = delete_calls (trace s1)) (fun _ => True)
    _ _ _ _ cfg fuel token s)).
  - reflexivity.
  - intros s1 s2 s3 H12 H23. rewrite H23. exact H12.
  - intros s1 u t w'. simpl. rewrite delete_calls_app. apply app_nil_r.
  - intros e _. exact I.
Qed.

Lemma no_delete_process_repo_dry token repo :
  DRY_RUN cfg = true -> no_delete (process_repo cfg fuel token repo).
Proof.
  intros Hdry s. rewrite process_repo_unfold.
  pose proof (no_delete_get_tags cfg fuel token repo
    (logged s [EvLog INFO (MsgRepository (DOCKERHUB_NAMESPACE cfg) repo)])) as Hq.
  simpl trace in Hq. rewrite delete_calls_app, app_nil_r in Hq.
  destruct (get_tags _ _ _ _ _) as [[tags|e|] s1]; simpl in Hq; try exact Hq.
  destruct (process_tags_dry cfg token repo tags 0
              {| checked := Z.of_nat (length tags); deleted := 0; kept := 0; errors := 0 |}
              s1 Hdry) as (_ & Hd & _).
  cbn zeta in Hd.
  destruct (process_tags _ _ _ _ _ _ _) as [[st|e|] s2]; simpl in *.
  - rewrite delete_calls_app, app_nil_r, Hd. exact Hq.
  - rewrite Hd. exact Hq.
  - rewrite Hd. exact Hq.
Qed.

Lemma no_delete_process_repos_dry token repos : forall totals,
  DRY_RUN cfg = true -> no_delete (process_repos cfg fuel token repos totals).
Proof.
  induction repos as [|r rest IH]; intros totals Hdry; simpl.
  - apply no_delete_ret.
  - apply no_delete_then; [apply no_delete_process_repo_dry; exact Hdry|].
    intros st. apply IH. exact Hdry.
Qed.

Lemma no_delete_run_cleanup_dry :
  DRY_RUN cfg = true -> no_delete (run_cleanup cfg fuel).
Proof.
  intros Hdry. unfold run_cleanup.
  apply no_delete_then; [apply no_delete_log|]. intros _.
  apply no_delete_then; [apply no_delete_get_token|]. intros token.
  apply no_delete_then.
  { destruct (REPOS_TO_CLEAN cfg);
      [apply no_delete_get_repositories | apply no_delete_ret]. }
  intros repos. apply no_delete_then; [apply no_delete_log|]. intros _.
  apply no_delete_then; [apply no_delete_process_repos_dry; exact Hdry|].
  intros totals. apply no_delete_then; [apply no_delete_log|]. intros _.
  apply no_delete_then.
  { destruct (negb _); [apply no_delete_log | apply no_delete_ret]. }
  intros _. destruct (DRY_RUN cfg); [apply no_delete_log | apply no_delete_ret].
Qed.

Lemma no_delete_safe_run_cleanup_dry :
  DRY_RUN cfg = true -> no_delete (safe_run_cleanup cfg fuel).
Proof.
  intros Hdry s. unfold safe_run_cleanup, try_except_Exception.
  pose proof (no_delete_run_cleanup_dry Hdry s) as Hrun.
  destruct (run_cleanup cfg fuel s) as [[[]|e|] s1]; simpl in *; try exact Hrun.
  destruct (is_Exception e); [|exact Hrun].
  unfold bind, log, emit. simpl. rewrite !delete_calls_app, !app_nil_r. exact Hrun.
Qed.

Lemma no_delete_scheduler_dry ticks :
  DRY_RUN cfg = true ->
  no_delete (scheduler_start (safe_run_cleanup cfg fuel) ticks).
Proof.
  intros Hdry. induction ticks as [|n IH]; simpl.
  - intros s. reflexivity.
  - apply no_delete_then; [apply no_delete_safe_run_cleanup_dry; exact Hdry|].
    intros _. exact IH.
Qed.

(** X5. With [DRY_RUN] true nothing in the program sends a delete request:
    not [run_cleanup], not [safe_run_cleanup], not [main] in one-shot or in
    cron mode over any number of ticks, whatever the registry answers and
    however each of them ends. *)
Theorem dry_run_never_deletes :
  DRY_RUN cfg = true ->
  forall (s : state W),
    delete_calls (trace (snd (run_cleanup cfg fuel s))) = delete_calls (trace s)
    /\ delete_calls (trace (snd (safe_run_cleanup cfg fuel s))) = delete_calls (trace s)
    /\ forall ticks,
         delete_calls (trace (snd (main cfg fuel ticks s))) = delete_calls (trace s).
Proof.
  intros Hdry s.
  split; [exact (no_delete_run_cleanup_dry Hdry s)|].
  split; [exact (no_delete_safe_run_cleanup_dry Hdry s)|].
  intros ticks. unfold main.
  destruct (_ || _).
  { unfold bind, log, emit, raise. simpl. rewrite delete_calls_app. apply app_nil_r. }
  destruct (String.eqb (CRON_SCHEDULE cfg) "").
  { exact (no_delete_run_cleanup_dry Hdry s). }
  destruct (from_crontab (CRON_SCHEDULE cfg)).
  - revert s.
    apply no_delete_then; [apply no_delete_log|]. intros _.
    apply no_delete_then; [apply no_delete_log|]. intros _.
    apply no_delete_then; [apply no_delete_safe_run_cleanup_dry; exact Hdry|].
    intros _ s. unfold try_except_interrupt.
    pose proof (no_delete_scheduler_dry ticks Hdry s) as Hs.
    destruct (scheduler_start _ ticks s) as [[[]|e|] s1]; simpl in *; try exact Hs.
    destruct e; try exact Hs;
      unfold log, emit; simpl; rewrite delete_calls_app, app_nil_r; exact Hs.
  - unfold bind, log, emit, raise. simpl. rewrite delete_calls_app. apply app_nil_r.
Qed.

(** X6. When the login fails, [run_cleanup] raises what [get_token] raised
    and has sent that one request and nothing else: no listing, no
    deletion. *)
Theorem run_cleanup_stops_at_failed_login (s : state W) e s1 :
  get_token cfg (logged s [EvLog INFO (MsgBanner cfg)]) = (Raise e, s1) ->
  run_cleanup cfg fuel s = (Raise e, s1)
  /\ requests_in (trace s1) = requests_in (trace s) ++ [EvPost LoginUrl].
Proof.
  intros Hlogin. split.
  - unfold run_cleanup, bind, log, emit, logged in *. simpl. rewrite Hlogin. reflexivity.
  - pose proof (get_token_one_request cfg (logged s [EvLog INFO (MsgBanner cfg)])) as Hone.
    rewrite Hlogin in Hone. simpl in Hone. rewrite Hone.
    unfold requests_in. rewrite !List.filter_app. simpl. rewrite app_nil_r. reflexivity.
Qed.

(** X7. The totals of the loop over the repositories are the starting
    totals plus, component by component, what the same loop accumulates from
    zero; the requests and log lines are the same either way. *)
Theorem process_repos_adds_to_totals token repos : forall totals (s : state W),
  process_repos cfg fuel token repos totals s =
    match process_repos cfg fuel token repos zero_stats s with
    | (Ok t, s') => (Ok (add_stats totals t), s')
    | (Raise e, s') => (Raise e, s')
    | (OutOfFuel, s') => (OutOfFuel, s')
    end.
Proof.
  induction repos as [|r rest IH]; intros totals s.
  - simpl. unfold ret, add_stats, zero_stats. destruct totals. simpl.
    rewrite !Z.add_0_r. reflexivity.
  - rewrite !process_repos_cons.
    destruct (process_repo cfg fuel token r s) as [[st|e|] s1]; try reflexivity.
    rewrite (IH (add_stats totals st) s1), (IH (add_stats zero_stats st) s1).
    destruct (process_repos cfg fuel token rest zero_stats s1) as [[t|e|] s2];
      try reflexivity.
    f_equal. f_equal. unfold add_stats. simpl. f_equal; lia.
Qed.

End RunMore.

(* ===================================================================== *)
(** ** More on the listings *)
(* ===================================================================== *)

Lemma py_lt_null_r a : py_lt a JNull = None.
Proof. destruct a as [|b|z|x|l|items]; try reflexivity; destruct b; reflexivity. Qed.

Lemma insert_desc_cases x l l' :
  insert_desc x l = Some l' ->
  (l' = x :: l /\ match l with [] => True | y :: _ => py_lt (fst x) (fst y) = Some false end)
  \/ exists y rest rest',
       l = y :: rest /\ py_lt (fst x) (fst y) = Some true
       /\ insert_desc x rest = Some rest' /\ l' = y :: rest'.
Proof.
  destruct l as [|y rest]; simpl.
  - intros [= <-]. left. split; [reflexivity | exact I].
  - destruct (py_lt (fst x) (fst y)) as [[|]|] eqn:Hlt; try discriminate.
    + destruct (insert_desc x rest) as [rest'|] eqn:Hins; try discriminate.
      intros [= <-]. right. exists y, rest, rest'. repeat split; auto.
    + intros [= <-]. left. split; [reflexivity | reflexivity].
Qed.

Lemma insert_desc_perm x l : forall l', insert_desc x l = Some l' -> Permutation (x :: l) l'.
Proof.
  induction l as [|y rest IH]; intros l' Hins;
    destruct (insert_desc_cases _ _ _ Hins) as [[-> _]|(y' & r & r' & Heq & _ & Hr & ->)];
    try reflexivity; try discriminate.
  injection Heq as <- <-. rewrite perm_swap. apply perm_skip. exact (IH _ Hr).
Qed.

Lemma sorted_desc_perm l : forall l', sorted_desc l = Some l' -> Permutation l l'.
Proof.
  induction l as [|x rest IH]; intros l'; simpl.
  - intros [= <-]. reflexivity.
  - destruct (sorted_desc rest) as [rest'|]; try discriminate.
    intros Hins. rewrite (IH rest' eq_refl). exact (insert_desc_perm _ _ _ Hins).
Qed.

Lemma insert_desc_newest_first x l : forall l',
  newest_first (map fst l) -> insert_desc x l = Some l' ->
  newest_first (map fst l')
  /\ match l' with
     | [] => False
     | z :: _ => z = x \/ match l with [] => False | y :: _ => z = y end
     end.
Proof.
  induction l as [|y rest IH]; intros l' Hdesc Hins;
    destruct (insert_desc_cases _ _ _ Hins) as [[-> Hhead]|(y' & r & r' & Heq & Hlt & Hr & ->)];
    try discriminate.
  - split; [exact I | left; reflexivity].
  - split; [|left; reflexivity]. simpl. split; [right; exact Hhead | exact Hdesc].
  - injection Heq as <- <-.
    assert (Hrest : newest_first (map fst rest)).
    { destruct rest; [exact I | exact (proj2 Hdesc)]. }
    destruct (IH r' Hrest Hr) as [Hd Hh].
    split; [|right; reflexivity].
    destruct r' as [|z r'']; [destruct Hh|].
    simpl. split; [|exact Hd].
    destruct Hh as [ -> | Hh ].
    + left. exact Hlt.
    + destruct rest as [|y2 rest2]; [destruct Hh|]. subst z. exact (proj1 Hdesc).
Qed.

Lemma sorted_desc_newest_first l : forall l',
  sorted_desc l = Some l' -> newest_first (map fst l').
Proof.
  induction l as [|x rest IH]; intros l'; simpl.
  - intros [= <-]. exact I.
  - destruct (sorted_desc rest) as [rest'|]; try discriminate.
    intros Hins. exact (proj1 (insert_desc_newest_first _ _ _ (IH _ eq_refl) Hins)).
Qed.

(** The pairs whose keys are in a class that [<] does not order keep their
    order: the sort is stable. *)
Lemma insert_desc_stable P x l : unordered_class P -> forall l',
  insert_desc x l = Some l' ->
  List.filter (fun p => P (fst p)) l' = List.filter (fun p => P (fst p)) (x :: l).
Proof.
  intros HP.
  induction l as [|y rest IH]; intros l' Hins;
    destruct (insert_desc_cases _ _ _ Hins) as [[-> _]|(y' & r & r' & Heq & Hlt & Hr & ->)];
    try reflexivity; try discriminate.
  injection Heq as <- <-.
  cbn [List.filter]. rewrite (IH r' Hr). cbn [List.filter].
  destruct (P (fst x)) eqn:Hx; [|reflexivity].
  destruct (P (fst y)) eqn:Hy; [|reflexivity].
  exfalso. exact (HP _ _ Hx Hy Hlt).
Qed.

Lemma sorted_desc_stable P l : unordered_class P -> forall l',
  sorted_desc l = Some l' ->
  List.filter (fun p => P (fst p)) l' = List.filter (fun p => P (fst p)) l.
Proof.
  intros HP.
  induction l as [|x rest IH]; intros l'; simpl.
  - intros [= <-]. reflexivity.
  - destruct (sorted_desc rest) as [rest'|]; try discriminate.
    intros Hins. rewrite (insert_desc_stable P _ _ HP _ Hins). cbn [List.filter].
    rewrite (IH rest' eq_refl). reflexivity.
Qed.

(** The keys equal to one timestamp string are such a class. *)
Lemma key_is_unordered k : unordered_class (key_is k).
Proof.
  intros a b Ha Hb Hlt. unfold key_is in Ha, Hb.
  destruct a as [| | |ka| |]; try discriminate.
  destruct b as [| | |kb| |]; try discriminate.
  apply String.eqb_eq in Ha, Hb. subst ka kb.
  simpl in Hlt. injection Hlt as Hlt. unfold String.ltb in Hlt.
  pose proof (String.compare_antisym k k) as Hanti.
  destruct (String.compare k k); discriminate.
Qed.

Lemma key_is_empty_list_unordered : unordered_class key_is_empty_list.
Proof.
  intros a b Ha Hb Hlt. unfold key_is_empty_list in Ha, Hb.
  destruct a as [| | | |[|? ?]|]; try discriminate.
  destruct b as [| | | |[|? ?]|]; try discriminate.
Qed.

Lemma sorted_desc_fixed l : descending (map fst l) -> sorted_desc l = Some l.
Proof.
  induction l as [|x rest IH]; intros Hdesc; [reflexivity|].
  simpl. rewrite IH.
  - destruct rest as [|y rest2]; [reflexivity|].
    simpl in *. rewrite (proj1 Hdesc). reflexivity.
  - destruct rest; [exact I | exact (proj2 Hdesc)].
Qed.

Lemma sorted_desc_null l :
  (2 <= length l)%nat -> In JNull (map fst l) -> sorted_desc l = None.
Proof.
  induction l as [|x rest IH]; intros Hlen Hin; [simpl in Hlen; lia|].
  simpl. destruct (sorted_desc rest) as [rest'|] eqn:Hrest; [|reflexivity].
  pose proof (sorted_desc_perm _ _ Hrest) as Hperm.
  destruct rest' as [|y rest2].
  { apply Permutation_nil_r in Hperm. subst rest. simpl in Hlen. lia. }
  destruct Hin as [Hx|Hin].
  - simpl. rewrite Hx. reflexivity.
  - destruct rest as [|r1 [|r2 rest3]]; [destruct Hin| |].
    + simpl in Hrest. injection Hrest as <- <-.
      destruct Hin as [Hr|[]]. simpl. rewrite Hr, py_lt_null_r. reflexivity.
    + assert (Hnone : Some (y :: rest2) = None)
        by (apply IH; [simpl; lia | exact Hin]).
      discriminate Hnone.
Qed.

Section Listings.
Context {W : Type} `{HW : Host W}.
Variable cfg : Config.
Variable fuel : nat.

Lemma keyed_spec tags : forall (s : state W),
  (Forall is_dict tags ->
     keyed tags s = (Ok (map (fun t => (sort_key t, t)) tags), s))
  /\ (forall ks s', keyed tags s = (Ok ks, s') -> Forall is_dict tags).
Proof.
  induction tags as [|t rest IH]; intros s.
  - split; [reflexivity | constructor].
  - destruct (IH s) as [IH1 IH2]. split.
    + intros Hall. inversion Hall as [|? ? [items ->] Hrest]; subst.
      simpl. unfold bind, py_get, ret. simpl. rewrite (IH1 Hrest). reflexivity.
    + intros ks s'. simpl. unfold bind, py_get.
      destruct t; try discriminate. simpl.
      destruct (keyed rest s) as [[ks'|e|] s1] eqn:Hk; try discriminate.
      intros _. constructor; [eexists; reflexivity | exact (IH2 _ _ eq_refl)].
Qed.

Lemma filter_keyed (P : json -> bool) (l : list (json * json)) :
  Forall (fun p => fst p = sort_key (snd p)) l ->
  List.filter (fun t => P (sort_key t)) (map snd l)
  = map snd (List.filter (fun p => P (fst p)) l).
Proof.
  induction 1 as [|p l' Hp _ IH]; [reflexivity|].
  cbn [map List.filter]. rewrite <- Hp, IH.
  destruct (P (fst p)); reflexivity.
Qed.

(** X8. When [get_tags] returns, it returns every tag of the listing
    exactly once (a permutation of what [paginate] delivered), all of them
    dicts, ordered so that no tag's [last_updated] is smaller than that of
    the tag after it, and stably: the tags whose keys the comparison does
    not order, in particular the tags that carry one same timestamp string,
    come in the order the listing had them.  A listing that is already in
    order comes back unchanged. *)
Theorem get_tags_newest_first token repo (s : state W) :
  (forall tags s',
      get_tags cfg fuel token repo s = (Ok tags, s') ->
      exists raw,
        paginate fuel (TagsUrl (DOCKERHUB_NAMESPACE cfg) repo) token s = (Ok raw, s')
        /\ Permutation raw tags
        /\ Forall is_dict tags
        /\ newest_first (map sort_key tags)
        /\ (forall P, unordered_class P ->
               List.filter (fun t => P (sort_key t)) tags
               = List.filter (fun t => P (sort_key t)) raw)
        /\ forall k, List.filter (has_timestamp k) tags
                     = List.filter (has_timestamp k) raw)
  /\ (forall raw s',
        paginate fuel (TagsUrl (DOCKERHUB_NAMESPACE cfg) repo) token s = (Ok raw, s') ->
        Forall is_dict raw ->
        descending (map sort_key raw) ->
        get_tags cfg fuel token repo s = (Ok raw, s')).
Proof.
  split.
  - intros tags s' Hrun. unfold get_tags, bind in Hrun.
    destruct (paginate fuel _ token s) as [[raw|e|] s1] eqn:Hpag; try discriminate.
    destruct (keyed raw s1) as [[ks|e|] s2] eqn:Hkeyed; try discriminate.
    pose proof (proj2 (keyed_spec raw s1) _ _ Hkeyed) as Hdict.
    rewrite (proj1 (keyed_spec raw s1) Hdict) in Hkeyed. injection Hkeyed as <- <-.
    destruct (sorted_desc _) as [l|] eqn:Hsort; try discriminate.
    injection Hrun as <- <-.
    pose proof (sorted_desc_perm _ _ Hsort) as Hperm.
    assert (Hraw : Forall (fun p => fst p = sort_key (snd p))
                     (map (fun t => (sort_key t, t)) raw)).
    { apply List.Forall_forall. intros p Hp. apply in_map_iff in Hp.
      destruct Hp as (t & <- & _). reflexivity. }
    assert (Hpairs : Forall (fun p => fst p = sort_key (snd p)) l).
    { eapply Permutation_Forall; [exact Hperm | exact Hraw]. }
    assert (Hsnd : map snd (map (fun t => (sort_key t, t)) raw) = raw).
    { rewrite map_map. simpl. apply map_id. }
    exists raw. split; [reflexivity|]. split.
    { apply (Permutation_map snd) in Hperm. rewrite Hsnd in Hperm. exact Hperm. }
    split.
    { eapply Permutation_Forall; [|exact Hdict].
      apply (Permutation_map snd) in Hperm. rewrite Hsnd in Hperm. exact Hperm. }
    assert (Hkeys : map sort_key (map snd l) = map fst l).
    { clear -Hpairs. induction Hpairs as [|p l' Hp _ IH]; [reflexivity|].
      simpl. rewrite Hp, IH. reflexivity. }
    split.
    { rewrite Hkeys. exact (sorted_desc_newest_first _ _ Hsort). }
    assert (Hstable : forall P, unordered_class P ->
              List.filter (fun t => P (sort_key t)) (map snd l)
              = List.filter (fun t => P (sort_key t)) raw).
    { intros P HP. rewrite (filter_keyed P l Hpairs), (sorted_desc_stable P _ HP _ Hsort).
      rewrite <- (filter_keyed P _ Hraw), Hsnd. reflexivity. }
    split; [exact Hstable|].
    intros k. exact (Hstable (key_is k) (key_is_unordered k)).
  - intros raw s' Hpag Hdict Hdesc. unfold get_tags, bind. rewrite Hpag.
    rewrite (proj1 (keyed_spec raw s') Hdict).
    rewrite sorted_desc_fixed.
    + rewrite map_map. simpl. rewrite map_id. reflexivity.
    + rewrite map_map. simpl. exact Hdesc.
Qed.

(** X9. A listing of two or more tags one of which carries
    ["last_updated": null] cannot be sorted: [get_tags] raises [TypeError]
    (null compares with nothing), so [process_repo] raises before any tag
    of that repository is evaluated. *)
Theorem get_tags_null_timestamp_raises token repo (s : state W) raw s' :
  let s0 := logged s [EvLog INFO (MsgRepository (DOCKERHUB_NAMESPACE cfg) repo)] in
  paginate fuel (TagsUrl (DOCKERHUB_NAMESPACE cfg) repo) token s0 = (Ok raw, s') ->
  Forall is_dict raw ->
  (2 <= length raw)%nat ->
  In JNull (map sort_key raw) ->
  get_tags cfg fuel token repo s0 = (Raise TypeError, s')
  /\ process_repo cfg fuel token repo s = (Raise TypeError, s').
Proof.
  intros s0 Hpag Hdict Hlen Hnull.
  assert (Hget : get_tags cfg fuel token repo s0 = (Raise TypeError, s')).
  { unfold get_tags, bind. rewrite Hpag.
    rewrite (proj1 (keyed_spec raw s') Hdict).
    rewrite sorted_desc_null; [reflexivity | rewrite length_map; exact Hlen |].
    rewrite map_map. simpl. exact Hnull. }
  split; [exact Hget|].
  rewrite process_repo_unfold. fold s0. rewrite Hget. reflexivity.
Qed.

Lemma names_of_spec repos : forall (s : state W) names s',
  names_of repos s = (Ok names, s') ->
  s' = s
  /\ Forall2 (fun r n => exists items, r = JObj items /\ items_lookup items "name" = Some n)
       repos names.
Proof.
  induction repos as [|r rest IH]; intros s names s'; simpl.
  - intros [= <- <-]. split; [reflexivity | constructor].
  - unfold bind, py_getitem. destruct r; try discriminate.
    destruct (items_lookup items "name") as [n|] eqn:Hn; try discriminate.
    simpl. destruct (names_of rest s) as [[ns|e|] s1] eqn:Hrest; try discriminate.
    intros [= <- <-]. destruct (IH _ _ _ Hrest) as [-> Hall].
    split; [reflexivity|]. constructor; [|exact Hall].
    exists items. split; [reflexivity | exact Hn].
Qed.

(** X10. When [get_repositories] returns, every entry of the namespace
    listing is a dict with a ["name"], and the result is those names, one
    per entry and in listing order. *)
Theorem get_repositories_names token (s : state W) names s' :
  get_repositories cfg fuel token s = (Ok names, s') ->
  exists raw,
    paginate fuel (RepositoriesUrl (DOCKERHUB_NAMESPACE cfg)) token s = (Ok raw, s')
    /\ Forall2 (fun r n => exists items, r = JObj items /\ items_lookup items "name" = Some n)
         raw names.
Proof.
  unfold get_repositories, bind. intros Hrun.
  destruct (paginate fuel _ token s) as [[raw|e|] s1] eqn:Hpag; try discriminate.
  destruct (names_of_spec _ _ _ _ Hrun) as [-> Hall].
  exists raw. split; [reflexivity | exact Hall].
Qed.

End Listings.

(** X11. [paginate] has no bound of its own and never looks back at the
    URLs it has visited: against a registry whose every page carries a
    truthy ["next"], it is still requesting pages after any number of
    requests. *)
Theorem paginate_follows_an_endless_cursor `{HW : Host W} token u :
  (forall w v, exists items next w',
      fetch token w v = (inr (items, next), w') /\ truthy next = true) ->
  url_truthy u = true ->
  forall n (s : state W),
    fst (paginate n u token s) = OutOfFuel
    /\ length (trace (snd (paginate n u token s))) = (length (trace s) + n)%nat.
Proof.
  intros Hendless Hu n. unfold paginate. generalize (@nil json) as results.
  revert u Hu. induction n as [|n IH]; intros u Hu results s.
  - simpl. rewrite Hu. simpl. split; [reflexivity | lia].
  - rewrite (paginate_loop_step token n u results s Hu).
    destruct (Hendless (world s) u) as (items & next & w' & Hfetch & Hnext).
    rewrite Hfetch.
    destruct (IH (NextUrl next) Hnext (results ++ items)
                (mkState w' (trace s ++ [EvGet u token]))) as [Hout Hlen].
    split; [exact Hout|]. rewrite Hlen. simpl. rewrite length_app. simpl. lia.
Qed.

(* ===================================================================== *)
(** ** The list-valued settings *)
(* ===================================================================== *)

Lemma lstrip_idem s : lstrip (lstrip s) = lstrip s.
Proof.
  induction s as [|c rest IH]; [reflexivity|].
  simpl. destruct (is_space c) eqn:Hc; [exact IH|]. simpl. rewrite Hc. reflexivity.
Qed.

Lemma rstrip_idem s : rstrip (rstrip s) = rstrip s.
Proof.
  induction s as [|c rest IH]; [reflexivity|].
  simpl. destruct (rstrip rest) as [|c' r'] eqn:Hr.
  - destruct (is_space c) eqn:Hc; [reflexivity|]. simpl. rewrite Hc. reflexivity.
  - change (rstrip (String c (String c' r')) = String c (String c' r')).
    cbn [rstrip] in IH |- *. rewrite IH. reflexivity.
Qed.

(** Stripping the left end of a string whose right end is clean leaves the
    right end clean. *)
Lemma rstrip_lstrip s : rstrip s = s -> rstrip (lstrip s) = lstrip s.
Proof.
  induction s as [|c rest IH]; [reflexivity|].
  intros Hfix. simpl. destruct (is_space c) eqn:Hc; [|exact Hfix].
  apply IH. simpl in Hfix. rewrite Hc in Hfix.
  destruct (rstrip rest) as [|c' r']; [discriminate|].
  injection Hfix as Hfix. exact Hfix.
Qed.

Lemma strip_idem s : strip (strip s) = strip s.
Proof.
  unfold strip. rewrite (rstrip_lstrip (rstrip s) (rstrip_idem s)).
  apply lstrip_idem.
Qed.

Lemma no_comma_lstrip s : no_comma s = true -> no_comma (lstrip s) = true.
Proof.
  induction s as [|c rest IH]; [reflexivity|].
  intros Hs. simpl. destruct (is_space c); [|exact Hs].
  apply IH. simpl in Hs. apply andb_true_iff in Hs. exact (proj2 Hs).
Qed.

Lemma no_comma_rstrip s : no_comma s = true -> no_comma (rstrip s) = true.
Proof.
  induction s as [|c rest IH]; [reflexivity|].
  intros Hs. simpl in Hs. apply andb_true_iff in Hs. destruct Hs as [Hc Hrest].
  simpl. specialize (IH Hrest). destruct (rstrip rest) as [|c' r'].
  - destruct (is_space c); [reflexivity|]. simpl. rewrite Hc. reflexivity.
  - cbn [no_comma] in IH |- *. rewrite Hc. exact IH.
Qed.

Lemma split_comma_no_comma s : Forall (fun p => no_comma p = true) (split_comma s).
Proof.
  induction s as [|c rest IH]; simpl.
  - constructor; [reflexivity | constructor].
  - destruct (Ascii.eqb c ",") eqn:Hc.
    + constructor; [reflexivity | exact IH].
    + destruct (split_comma rest) as [|p ps].
      * constructor; [simpl; rewrite Hc; reflexivity | constructor].
      * inversion IH as [|? ? Hp Hps]; subst.
        constructor; [simpl; rewrite Hc; exact Hp | exact Hps].
Qed.

Lemma split_comma_piece x rest :
  no_comma x = true ->
  split_comma (x +:+ String "," rest) = x :: split_comma rest.
Proof.
  induction x as [|c x' IH]; intros Hx.
  - reflexivity.
  - simpl in Hx. apply andb_true_iff in Hx. destruct Hx as [Hc Hx'].
    apply negb_true_iff in Hc. simpl. rewrite Hc, (IH Hx'). reflexivity.
Qed.

Lemma split_comma_single x : no_comma x = true -> split_comma x = [x].
Proof.
  induction x as [|c x' IH]; intros Hx; [reflexivity|].
  simpl in Hx. apply andb_true_iff in Hx. destruct Hx as [Hc Hx'].
  apply negb_true_iff in Hc. simpl. rewrite Hc, (IH Hx'). reflexivity.
Qed.

Lemma split_comma_join x xs :
  Forall (fun p => no_comma p = true) (x :: xs) ->
  split_comma (String.concat "," (x :: xs)) = x :: xs.
Proof.
  revert x. induction xs as [|y ys IH]; intros x Hall;
    inversion Hall as [|? ? Hx Hrest]; subst.
  - simpl. exact (split_comma_single x Hx).
  - change (String.concat "," (x :: y :: ys))
      with (x +:+ String "," (String.concat "," (y :: ys))).
    rewrite (split_comma_piece _ _ Hx), (IH y Hrest). reflexivity.
Qed.

(** X12. Every name that [REPOS_TO_CLEAN] or [EXCLUDE_TAGS] is parsed into
    is non-empty, contains no comma, and has no whitespace at either end. *)
Theorem parse_list_gives_clean_names v x :
  In x (parse_list v) -> clean_name x.
Proof.
  unfold parse_list. intros Hin. apply List.filter_In in Hin.
  destruct Hin as [Hin Hne]. apply in_map_iff in Hin. destruct Hin as (p & <- & Hp).
  assert (Hnc : no_comma p = true).
  { pose proof (split_comma_no_comma v) as Hall.
    rewrite List.Forall_forall in Hall. exact (Hall p Hp). }
  split; [|split].
  - intros Heq. rewrite Heq in Hne. discriminate.
  - unfold strip. apply no_comma_lstrip, no_comma_rstrip, Hnc.
  - apply strip_idem.
Qed.

(** X13. Round trip: a list of names that are non-empty, comma-free and
    without surrounding whitespace, joined with commas, parses back to the
    same list, in the same order and with its duplicates. *)
Theorem parse_list_of_joined_names xs :
  Forall clean_name xs -> parse_list (String.concat "," xs) = xs.
Proof.
  intros Hall. destruct xs as [|x xs']; [reflexivity|].
  unfold parse_list. rewrite split_comma_join.
  - induction Hall as [|y ys (Hne & _ & Hstrip) _ IH]; [reflexivity|].
    cbn [map List.filter]. rewrite Hstrip.
    destruct (String.eqb_spec y ""); [contradiction|]. simpl. rewrite IH. reflexivity.
  - eapply Forall_impl; [exact Hall|]. intros y (_ & Hy & _). exact Hy.
Qed.

Lemma rstrip_blank s : all_blank s = true -> rstrip s = EmptyString.
Proof.
  induction s as [|c rest IH]; [reflexivity|].
  intros Hs. simpl in Hs. apply andb_true_iff in Hs. destruct Hs as [Hc Hrest].
  simpl. rewrite (IH Hrest), Hc. reflexivity.
Qed.

Lemma split_comma_blank s :
  only_blanks_and_commas s = true ->
  Forall (fun p => all_blank p = true) (split_comma s).
Proof.
  induction s as [|c rest IH]; intros Hs; simpl.
  - constructor; [reflexivity | constructor].
  - simpl in Hs. apply andb_true_iff in Hs. destruct Hs as [Hc Hrest].
    specialize (IH Hrest). destruct (Ascii.eqb c ",") eqn:Hcomma.
    + constructor; [reflexivity | exact IH].
    + rewrite orb_false_r in Hc. destruct (split_comma rest) as [|p ps].
      * constructor; [simpl; rewrite Hc; reflexivity | constructor].
      * inversion IH as [|? ? Hp Hps]; subst.
        constructor; [simpl; rewrite Hc; exact Hp | exact Hps].
Qed.

Lemma parse_list_blank v : only_blanks_and_commas v = true -> parse_list v = [].
Proof.
  intros Hv. unfold parse_list. pose proof (split_comma_blank v Hv) as Hall.
  induction Hall as [|p ps Hp _ IH]; [reflexivity|].
  cbn [map List.filter]. unfold strip at 1. rewrite (rstrip_blank p Hp). simpl. exact IH.
Qed.

(** X14. A setting made of nothing but whitespace and commas parses to the
    empty list: such an [EXCLUDE_TAGS] (the empty string included) excludes
    no tag, "latest" being excluded only when the variable is unset, and
    such a [REPOS_TO_CLEAN] is no filter at all, like an unset one. *)
Theorem blank_settings_are_empty (environ : gmap string string) :
  (forall v, environ !! "EXCLUDE_TAGS"%string = Some v ->
     only_blanks_and_commas v = true ->
     load_EXCLUDE_TAGS environ = []
     /\ forall name, py_in name (load_EXCLUDE_TAGS environ) = false)
  /\ (environ !! "EXCLUDE_TAGS"%string = None ->
        load_EXCLUDE_TAGS environ = ["latest"%string])
  /\ (forall v, environ !! "REPOS_TO_CLEAN"%string = Some v ->
        only_blanks_and_commas v = true -> load_REPOS_TO_CLEAN environ = [])
  /\ (environ !! "REPOS_TO_CLEAN"%string = None -> load_REPOS_TO_CLEAN environ = []).
Proof.
  unfold load_EXCLUDE_TAGS, load_REPOS_TO_CLEAN, os_getenv.
  split; [|split; [|split]].
  - intros v -> Hv. simpl. rewrite (parse_list_blank v Hv).
    split; [reflexivity|]. intros name. destruct name; reflexivity.
  - intros ->. reflexivity.
  - intros v -> Hv. simpl. exact (parse_list_blank v Hv).
  - intros ->. reflexivity.
Qed.

(* ===================================================================== *)
(** ** The additional properties on the sample data *)
(* ===================================================================== *)

(** [v1], thirty days old, at rank 2 of 3 kept: not deleted. *)
Lemma delete_only_beyond_keep_and_old_witness :
  2 < KEEP_LAST_N dry_cfg
  /\ ~ says_delete (evaluate_tag (HW := scripted_host calendar) dry_cfg (JObj tag_v1) 2
                      (start [] noon_31_march)).
Proof.
  split; [reflexivity|].
  apply (proj2 (delete_only_beyond_keep_and_old (HW := scripted_host calendar)
                  dry_cfg (JObj tag_v1) 2 (start [] noon_31_march))).
  reflexivity.
Defined.

(** [v2] is deleted at rank 3 at noon, hence also at rank 7 a day later. *)
Lemma delete_is_monotone_witness :
  says_delete (evaluate_tag (HW := scripted_host calendar) dry_cfg (JObj tag_v2) 3
                 (start [] noon_31_march))
  /\ says_delete (evaluate_tag (HW := scripted_host calendar) dry_cfg (JObj tag_v2) 7
                    (start [] (noon_31_march + US_PER_DAY))).
Proof.
  assert (Hfirst : says_delete
            (evaluate_tag (HW := scripted_host calendar) dry_cfg (JObj tag_v2) 3
               (start [] noon_31_march))).
  { eexists. vm_compute. reflexivity. }
  split; [exact Hfirst|].
  apply (delete_is_monotone (HW := scripted_host calendar) dry_cfg (JObj tag_v2) 3 7
           (start [] noon_31_march) (start [] (noon_31_march + US_PER_DAY)) Hfirst).
  - lia.
  - vm_compute. discriminate.
Defined.

(** The live run over "app": of v5 v4 v3 v2 v1 only v2 and v1, the tags
    past the three newest, are picked; three are kept. *)
Lemma process_repo_keeps_newest_witness :
  (exists picked,
     sublist picked (drop (Z.to_nat (KEEP_LAST_N live_cfg))
                       [JObj tag_v5; JObj tag_v4; JObj tag_v3; JObj tag_v2; JObj tag_v1])
     /\ picked_for_deletion
          (trace (snd (process_repo (HW := scripted_host calendar) live_cfg 5 jwt app
                         (start app_answers noon_31_march))))
        = [] ++ map tag_name picked
     /\ picked_for_deletion
          (trace (snd (process_repo (HW := scripted_host calendar) live_cfg 5 jwt app
                         (start app_answers noon_31_march))))
        = [JStr "v2"; JStr "v1"])
  /\ exists st s',
       process_repo (HW := scripted_host calendar) live_cfg 5 jwt app
         (start app_answers noon_31_march) = (Ok st, s')
       /\ Z.min (checked st) (KEEP_LAST_N live_cfg) <= kept st
       /\ deleted st + errors st <= Z.max 0 (checked st - KEEP_LAST_N live_cfg).
Proof.
  destruct (process_repo_keeps_newest (HW := scripted_host calendar) live_cfg 5 jwt app
              (start app_answers noon_31_march)) as [Hpicked Hcount].
  split.
  - destruct (get_tags (HW := scripted_host calendar) live_cfg 5 jwt app
                (logged (start app_answers noon_31_march)
                   [EvLog INFO (MsgRepository (DOCKERHUB_NAMESPACE live_cfg) app)]))
      as [[tags|e|] s1] eqn:Hget; pose proof Hget as Hval; vm_compute in Hval;
      try discriminate.
    injection Hval as <- _.
    destruct (Hpicked _ _ eq_refl) as (picked & Hsub & Hpick & _).
    exists picked. split; [exact Hsub|]. split; [exact Hpick|].
    vm_compute. reflexivity.
  - destruct (process_repo (HW := scripted_host calendar) live_cfg 5 jwt app
                (start app_answers noon_31_march)) as [[st|e|] s'] eqn:Hrun;
      pose proof Hrun as Hval; vm_compute in Hval; try discriminate.
    exists st, s'. split; [reflexivity|]. exact (Hcount st s' eq_refl).
Defined.

(** A nameless tag thirty days old at rank 5, with "unknown" excluded: the
    delete request goes out for "unknown". *)
Lemma nameless_tag_is_deleted_as_unknown_witness :
  items_lookup tag_nameless "name" = None
  /\ In "unknown"%string (EXCLUDE_TAGS unknown_excluded_cfg)
  /\ delete_calls (trace (snd (process_tag (HW := scripted_host calendar)
                                 unknown_excluded_cfg jwt app 5 (JObj tag_nameless)
                                 zero_stats (start [status_only 204] noon_31_march))))
     = [] ++ [TagUrl "acme" app (JStr "unknown")].
Proof.
  split; [reflexivity|]. split; [left; reflexivity|].
  apply (nameless_tag_is_deleted_as_unknown (HW := scripted_host calendar)
           unknown_excluded_cfg jwt app tag_nameless 5 zero_stats
           (start [status_only 204] noon_31_march)
           (BeyondKeepOldEnough 6 3 30 7) {| status_code := 204; body := None |}
           {| answers := []; clock := noon_31_march |});
    [reflexivity | reflexivity | vm_compute; reflexivity | reflexivity].
Defined.

(** Cron mode, dry, three ticks, the whole listing and two spare answers at
    hand: still no delete request. *)
Lemma dry_run_never_deletes_witness :
  DRY_RUN cron_cfg = true
  /\ delete_calls (trace (snd (main (HW := scripted_host calendar) cron_cfg 5 3
                                 (start (login_ok :: app_answers) noon_31_march)))) = [].
Proof.
  split; [reflexivity|].
  exact (proj2 (proj2 (dry_run_never_deletes (HW := scripted_host calendar) cron_cfg 5
                         eq_refl (start (login_ok :: app_answers) noon_31_march))) 3%nat).
Defined.

(** A 401 on login: the run raises it after the one request. *)
Lemma run_cleanup_stops_at_failed_login_witness :
  exists s1,
    get_token (HW := scripted_host calendar) live_cfg
      (logged (start [status_only 401; ok_json app_page_1] noon_31_march)
         [EvLog INFO (MsgBanner live_cfg)]) = (Raise (HTTPError 401), s1)
    /\ run_cleanup (HW := scripted_host calendar) live_cfg 5
         (start [status_only 401; ok_json app_page_1] noon_31_march)
       = (Raise (HTTPError 401), s1)
    /\ requests_in (trace s1) = [] ++ [EvPost LoginUrl].
Proof.
  eexists. split; [vm_compute; reflexivity|].
  apply (run_cleanup_stops_at_failed_login (HW := scripted_host calendar) live_cfg 5
           (start [status_only 401; ok_json app_page_1] noon_31_march)).
  vm_compute. reflexivity.
Defined.

(** [v3], [v5] and a twin of [v3] updated at the same instant come back as
    [v5], [v3], twin: newest first, the two twins in listing order. *)
Lemma get_tags_newest_first_witness :
  exists s',
    get_tags (HW := scripted_host calendar) live_cfg 5 jwt app
      (start [ok_json twin_page] noon_31_march)
    = (Ok [JObj tag_v5; JObj tag_v3; JObj tag_v3_twin], s')
    /\ exists raw,
         paginate (HW := scripted_host calendar) 5 (TagsUrl "acme" app) jwt
           (start [ok_json twin_page] noon_31_march) = (Ok raw, s')
         /\ Permutation raw [JObj tag_v5; JObj tag_v3; JObj tag_v3_twin]
         /\ Forall is_dict [JObj tag_v5; JObj tag_v3; JObj tag_v3_twin]
         /\ newest_first (map sort_key [JObj tag_v5; JObj tag_v3; JObj tag_v3_twin])
         /\ (forall P, unordered_class P ->
                List.filter (fun t => P (sort_key t))
                  [JObj tag_v5; JObj tag_v3; JObj tag_v3_twin]
                = List.filter (fun t => P (sort_key t)) raw)
         /\ forall k, List.filter (has_timestamp k) [JObj tag_v5; JObj tag_v3; JObj tag_v3_twin]
                      = List.filter (has_timestamp k) raw.
Proof.
  eexists.
  assert (Hrun : get_tags (HW := scripted_host calendar) live_cfg 5 jwt app
                   (start [ok_json twin_page] noon_31_march)
                 = (Ok [JObj tag_v5; JObj tag_v3; JObj tag_v3_twin],
                    mkState {| answers := []; clock := noon_31_march |}
                            [EvGet (TagsUrl "acme" app) jwt])).
  { vm_compute. reflexivity. }
  split; [exact Hrun|].
  exact (proj1 (get_tags_newest_first (HW := scripted_host calendar) live_cfg 5 jwt app
                  (start [ok_json twin_page] noon_31_march)) _ _ Hrun).
Defined.

(** Two tags whose [last_updated] is an empty list: the keys compare (as
    equal), the listing comes back in its order, and both tags are kept for
    want of a timestamp. *)
Example get_tags_sorts_list_timestamps :
  fst (get_tags (HW := scripted_host calendar) live_cfg 5 jwt app
         (start [ok_json list_date_page] noon_31_march))
  = Ok [JObj tag_listed_a; JObj tag_listed_b]
  /\ fst (process_repo (HW := scripted_host calendar) live_cfg 5 jwt app
            (start [ok_json list_date_page] noon_31_march))
     = Ok {| checked := 2; deleted := 0; kept := 2; errors := 0 |}
  /\ List.filter (fun t => key_is_empty_list (sort_key t))
       [JObj tag_listed_a; JObj tag_listed_b]
     = [JObj tag_listed_a; JObj tag_listed_b].
Proof. split; [|split]; vm_compute; reflexivity. Qed.

(** Two tags, one with a null timestamp: the repository cannot be
    processed. *)
Lemma get_tags_null_timestamp_raises_witness :
  exists s',
    paginate (HW := scripted_host calendar) 5 (TagsUrl "acme" app) jwt
      (logged (start [ok_json null_date_page] noon_31_march)
         [EvLog INFO (MsgRepository "acme" app)])
    = (Ok [JObj tag_v3; JObj tag_null_date], s')
    /\ process_repo (HW := scripted_host calendar) live_cfg 5 jwt app
         (start [ok_json null_date_page] noon_31_march) = (Raise TypeError, s').
Proof.
  eexists. split; [vm_compute; reflexivity|].
  apply (get_tags_null_timestamp_raises (HW := scripted_host calendar) live_cfg 5 jwt app
           (start [ok_json null_date_page] noon_31_march)
           [JObj tag_v3; JObj tag_null_date]).
  - vm_compute. reflexivity.
  - repeat constructor; eexists; reflexivity.
  - simpl. lia.
  - right. left. reflexivity.
Defined.

(** The namespace listing gives "app" and "web". *)
Lemma get_repositories_names_witness :
  exists s',
    get_repositories (HW := scripted_host calendar) live_cfg 5 jwt
      (start [ok_json namespace_page] noon_31_march) = (Ok [JStr "app"; JStr "web"], s')
    /\ exists raw,
         paginate (HW := scripted_host calendar) 5 (RepositoriesUrl "acme") jwt
           (start [ok_json namespace_page] noon_31_march) = (Ok raw, s')
         /\ Forall2 (fun r n => exists items,
                       r = JObj items /\ items_lookup items "name" = Some n)
              raw [JStr "app"; JStr "web"].
Proof.
  eexists.
  assert (Hrun : get_repositories (HW := scripted_host calendar) live_cfg 5 jwt
                   (start [ok_json namespace_page] noon_31_march)
                 = (Ok [JStr "app"; JStr "web"],
                    mkState {| answers := []; clock := noon_31_march |}
                            [EvGet (RepositoriesUrl "acme") jwt])).
  { vm_compute. reflexivity. }
  split; [exact Hrun|].
  exact (get_repositories_names (HW := scripted_host calendar) live_cfg 5 jwt _ _ _ Hrun).
Defined.

(** Against the endless registry, seven requests and no end. *)
Lemma paginate_follows_an_endless_cursor_witness :
  url_truthy (RepositoriesUrl "acme") = true
  /\ fst (paginate (HW := endless_host) 7 (RepositoriesUrl "acme") jwt (mkState tt []))
     = OutOfFuel
  /\ length (trace (snd (paginate (HW := endless_host) 7 (RepositoriesUrl "acme") jwt
                           (mkState tt [])))) = (0 + 7)%nat.
Proof.
  split; [reflexivity|].
  apply (paginate_follows_an_endless_cursor (HW := endless_host) jwt
           (RepositoriesUrl "acme")); [|reflexivity].
  intros [] v. eexists. eexists. eexists. split; reflexivity.
Defined.

(** " app , web ,," gives "app" and "web", both clean. *)
Lemma parse_list_gives_clean_names_witness :
  In "web"%string (parse_list " app , web ,,") /\ clean_name "web".
Proof.
  assert (Hin : In "web"%string (parse_list " app , web ,,")).
  { vm_compute. right. left. reflexivity. }
  split; [exact Hin|].
  exact (parse_list_gives_clean_names " app , web ,," "web" Hin).
Defined.

Lemma parse_list_of_joined_names_witness :
  Forall clean_name ["app"; "my web"; "app"]%string
  /\ parse_list (String.concat "," ["app"; "my web"; "app"]%string)
     = ["app"; "my web"; "app"]%string.
Proof.
  assert (Hall : Forall clean_name ["app"; "my web"; "app"]%string).
  { repeat constructor; discriminate. }
  split; [exact Hall|].
  exact (parse_list_of_joined_names _ Hall).
Defined.

(** [EXCLUDE_TAGS=" , "] excludes nothing, not even "latest". *)
Lemma blank_settings_are_empty_witness :
  environ_with_key "EXCLUDE_TAGS" " , " !! "EXCLUDE_TAGS"%string = Some " , "%string
  /\ only_blanks_and_commas " , " = true
  /\ load_EXCLUDE_TAGS (environ_with_key "EXCLUDE_TAGS" " , ") = []
  /\ py_in (JStr "latest") (load_EXCLUDE_TAGS (environ_with_key "EXCLUDE_TAGS" " , ")) = false.
Proof.
  assert (Hget : environ_with_key "EXCLUDE_TAGS" " , " !! "EXCLUDE_TAGS"%string
                 = Some " , "%string).
  { vm_compute. reflexivity. }
  split; [exact Hget|]. split; [reflexivity|].
  destruct (proj1 (blank_settings_are_empty (environ_with_key "EXCLUDE_TAGS" " , "))
              " , "%string Hget eq_refl) as [Hempty Hnone].
  split; [exact Hempty | exact (Hnone (JStr "latest"))].
Defined.
